(** * KnowBe4 training report: paged retrieval and compliance analysis

    A shallow embedding of [kb4_train.py] (class [KnowBe4ReportGenerator]):
    [_paginated_get], the three fetchers built on it, [analyse_training_data]
    and [generate_report], followed by the properties of the specification
    that concern them.

    Conventions.
    - A Python call either returns or raises: [result].  The [while True]
      loop of [_paginated_get] is run with fuel, [None] meaning that the
      fuel ran out before the loop was left.
    - Dictionaries handed over by reference live in a [heap]; a parameter
      of dictionary type is a location (or [None] for Python's [None]).
    - Python's [float] is IEEE binary64.  A finite binary64 value is a
      rational number, and every operation used here is the exact operation
      followed by rounding to nearest, ties to even: [Binary64.rn]. *)

From Stdlib Require Import ZArith QArith Qround Qpower Qabs Lia Lqa String Ascii Floats.
From stdpp Require Import gmap strings list fin_maps.

Local Open Scope Z_scope.

(* ===================================================================== *)
(** ** Binary64 arithmetic on rationals *)
(* ===================================================================== *)

Module Binary64.

Local Open Scope Q_scope.

(** [floor (log2 q)] for [0 < q]. *)
Definition ilog2 (q : Q) : Z :=
  let c := (Z.log2 (Qnum q) - Z.log2 (Zpos (Qden q)))%Z in
  if Qle_bool (2 ^ c) q then c else (c - 1)%Z.

(** Nearest integer, ties to the even one. *)
Definition round_half_even (q : Q) : Z :=
  let f := Qfloor q in
  match Qcompare (q - inject_Z f) (1 # 2) with
  | Lt => f
  | Gt => (f + 1)%Z
  | Eq => if Z.even f then f else (f + 1)%Z
  end.

(** Rounding of a positive rational to 53 significant bits.  The exponent
    range of binary64 is not modelled: the result is the binary64 value
    whenever [2^-1022 <= q < 2^1024], which holds for every quotient of
    list lengths. *)
Definition rn_pos (q : Q) : Q :=
  let e := (ilog2 q - 52)%Z in
  inject_Z (round_half_even (q / 2 ^ e)) * 2 ^ e.

Definition rn (q : Q) : Q :=
  match Qnum q with
  | Z0 => 0
  | Zpos _ => rn_pos q
  | Zneg _ => - rn_pos (- q)
  end.

(** Python's [a / b] on integers: the correctly rounded quotient. *)
Definition int_truediv (a b : Z) : Q := rn (inject_Z a / inject_Z b).

(** Python's [x * n] for a float [x] and an integer [n]. *)
Definition float_mul_int (x : Q) (n : Z) : Q := rn (x * inject_Z n).

(** Python's [round(x, 2)]: the decimal with two places nearest to the
    exact value of [x], ties to even, converted back to binary64. *)
Definition round2 (x : Q) : Q :=
  rn (inject_Z (round_half_even (x * 100)) / 100).

(** The rational denoted by a kernel float, for cross-checking [rn]
    against the kernel's binary64 operations. *)
Definition of_float (f : float) : option Q :=
  match Prim2SF f with
  | S754_zero _ => Some 0
  | S754_finite s m e =>
      let v := inject_Z (Zpos m) * 2 ^ e in
      Some (if s then - v else v)
  | _ => None
  end.

Definition float_of_Z (z : Z) : float :=
  if (z <? 0)%Z then PrimFloat.opp (PrimFloat.of_uint63 (Uint63.of_Z (- z)))
  else PrimFloat.of_uint63 (Uint63.of_Z z).

Definition agrees (x : Q) (f : float) : bool :=
  match of_float f with
  | Some y => Qeq_bool x y
  | None => false
  end.

End Binary64.


(* ===================================================================== *)
(** ** Python values, exceptions and dates *)
(* ===================================================================== *)

Inductive exn : Type :=
| ValueError          (** [datetime.strptime] on a string that does not match *)
| UnboundLocalError.  (** a local variable read before it was bound *)

Inductive result (A : Type) : Type :=
| Ok (a : A)
| Raise (e : exn).

Arguments Ok {A} a.
Arguments Raise {A} e.

#[global] Instance result_ret : MRet result := @Ok.
#[global] Instance result_bind : MBind result := λ A B k r,
  match r with
  | Ok a => k a
  | Raise e => Raise e
  end.
#[global] Instance result_fmap : FMap result := λ A B f r,
  match r with
  | Ok a => Ok (f a)
  | Raise e => Raise e
  end.

(** A value stored in a dictionary: a JSON integer, a string, [null]
    (Python's [None]), or any other JSON value (a boolean, a number that
    is no integer, an array, an object) by its text. *)
Inductive value : Type :=
| VInt (z : Z)
| VStr (s : string)
| VNone
| VOther (json : string).

#[global] Instance value_eq_dec : EqDecision value.
Proof. solve_decision. Defined.

(** A naive [datetime]; Python orders them field by field. *)
Record datetime : Type := mk_datetime {
  year : Z; month : Z; day : Z;
  hour : Z; minute : Z; second : Z; microsecond : Z
}.

#[global] Instance datetime_eq_dec : EqDecision datetime.
Proof. solve_decision. Defined.

Fixpoint lex_compare (a b : list Z) : comparison :=
  match a, b with
  | x :: a', y :: b' =>
      match Z.compare x y with
      | Eq => lex_compare a' b'
      | c => c
      end
  | [], [] => Eq
  | [], _ :: _ => Lt
  | _ :: _, [] => Gt
  end.

Definition datetime_fields (d : datetime) : list Z :=
  [year d; month d; day d; hour d; minute d; second d; microsecond d].

Definition datetime_compare (a b : datetime) : comparison :=
  lex_compare (datetime_fields a) (datetime_fields b).

(** [a < b] on datetimes. *)
Definition datetime_lt (a b : datetime) : bool :=
  match datetime_compare a b with
  | Lt => true
  | _ => false
  end.

(** Truthiness of an optional string: [None] and [''] are falsy.  The
    result is the string itself when it is truthy. *)
Definition truthy (o : option string) : option string :=
  match o with
  | Some s => if bool_decide (s = EmptyString) then None else Some s
  | None => None
  end.

(* ===================================================================== *)
(** ** Records of the KnowBe4 API *)
(* ===================================================================== *)

(** A user record.  [uid] is [user['id']]; the keys read with [[]] are
    fields.  [manager_name] is read with [.get]: [None] is a record without
    the key, [Some VNone] a record whose key holds JSON [null].  Every
    further key of the record lives in [other_fields] with its value. *)
Record user : Type := mk_user {
  uid : Z;
  first_name : string;
  last_name : string;
  email : string;
  manager_name : option value;
  other_fields : gmap string value
}.

(** A training campaign: [campaign['name']] and [campaign['campaign_id']]. *)
Record campaign : Type := mk_campaign {
  name : string;
  campaign_id : Z
}.

(** An enrollment.  [user_id] is [enrollment['user']['id']]; [due_date] and
    [status] are read with [.get] and may be absent. *)
Record enrollment : Type := mk_enrollment {
  user_id : Z;
  campaign_name : string;
  due_date : option string;
  status : option string
}.

#[global] Instance enrollment_eq_dec : EqDecision enrollment.
Proof. solve_decision. Defined.

(** The configuration kept on [self]. *)
Record KnowBe4ReportGenerator : Type := mk_generator {
  base_url : string;
  mandatory_campaigns : list string;
  optional_user_fields : list string
}.

(** [user.get(field)]. *)
Definition user_get (u : user) (field : string) : option value :=
  if bool_decide (field = "id"%string) then Some (VInt (uid u))
  else if bool_decide (field = "first_name"%string) then Some (VStr (first_name u))
  else if bool_decide (field = "last_name"%string) then Some (VStr (last_name u))
  else if bool_decide (field = "email"%string) then Some (VStr (email u))
  else if bool_decide (field = "manager_name"%string) then manager_name u
  else other_fields u !! field.

(** A row of the untrained-users table: a dictionary in insertion order. *)
Definition row : Type := list (string * value).

(** [d[k] = v] on an insertion-ordered dictionary. *)
Fixpoint dict_set (k : string) (v : value) (d : row) : row :=
  match d with
  | [] => [(k, v)]
  | (k', v') :: d' =>
      if bool_decide (k' = k) then (k, v) :: d' else (k', v') :: dict_set k v d'
  end.

Record metrics : Type := mk_metrics {
  Total_Users : Z;
  Total_Untrained_Users : Z;
  Completion_Rate : Q
}.

Record report : Type := mk_report {
  report_metrics : metrics;
  report_untrained_users : list row
}.

(** The two collections the enrollment loop updates. *)
Record tracking : Type := mk_tracking {
  untrained_users : gset Z;
  user_enrollments : gmap Z (list enrollment)
}.

Definition tracking_empty : tracking :=
  {| untrained_users := ∅; user_enrollments := ∅ |}.

(** [status in {'Completed', 'Passed'}]. *)
Definition terminal_success (st : option string) : bool :=
  bool_decide (st = Some "Completed"%string ∨ st = Some "Passed"%string).

(* ===================================================================== *)
(** ** [analyse_training_data] *)
(* ===================================================================== *)

Section Analysis.

(** [datetime.strptime(s, '%Y-%m-%dT%H:%M:%SZ')]; [None] is its
    [ValueError]. *)
Variable strptime : string → option datetime.

(** The reading of [datetime.now()] during the analysis. *)
Variable now : datetime.

(** One pass of the loop over [enrollments]. *)
Definition analyse_enrollment (mandatory_campaigns : list string)
    (t : tracking) (enrollment : enrollment) : result tracking :=
  let user_id := user_id enrollment in
  let campaign_name := campaign_name enrollment in
  let due_date := due_date enrollment in
  let status := status enrollment in
  let user_enrollments :=
    <[user_id := default [] (user_enrollments t !! user_id) ++ [enrollment]]>
      (user_enrollments t) in
  let skip := {| untrained_users := untrained_users t;
                 user_enrollments := user_enrollments |} in
  let add := {| untrained_users := {[user_id]} ∪ untrained_users t;
                user_enrollments := user_enrollments |} in
  if bool_decide (campaign_name ∈ mandatory_campaigns) then
    if negb (terminal_success status) then
      match truthy due_date with
      | Some s =>
          match strptime s with
          | None => Raise ValueError
          | Some due_date => if datetime_lt due_date now then Ok add else Ok skip
          end
      | None => Ok add
      end
    else Ok skip
  else Ok skip.

Fixpoint analyse_enrollments (mandatory_campaigns : list string)
    (t : tracking) (enrollments : list enrollment) : result tracking :=
  match enrollments with
  | [] => Ok t
  | enrollment :: rest =>
      t' ← analyse_enrollment mandatory_campaigns t enrollment;
      analyse_enrollments mandatory_campaigns t' rest
  end.

(** [{user['id']: user for user in users}]: a later user replaces an
    earlier one with the same id. *)
Definition build_user_lookup (users : list user) : gmap Z user :=
  foldl (λ m u, <[uid u := u]> m) ∅ users.

(** One element of [untrained_user_data]. *)
Definition untrained_row (self : KnowBe4ReportGenerator) (u : user) : row :=
  foldl (λ d field, dict_set field (default (VStr "N/A") (user_get u field)) d)
    [("Name"%string, VStr (first_name u +:+ " " +:+ last_name u));
     ("Email"%string, VStr (email u));
     ("Manager"%string, default (VStr "N/A") (manager_name u))]
    (optional_user_fields self).

(** The rows for the untrained ids found in the lookup.  Python iterates
    over the set in an order of its own; [elements] fixes one, and the
    properties below speak of the rows up to their order. *)
Definition untrained_rows (self : KnowBe4ReportGenerator)
    (user_lookup : gmap Z user) (untrained : gset Z) : list row :=
  omap (λ i, untrained_row self <$> user_lookup !! i) (elements untrained).

Definition completion_rate (total_users total_untrained : Z) : Q :=
  if negb (total_users =? 0)
  then Binary64.float_mul_int
         (Binary64.int_truediv (total_users - total_untrained) total_users) 100
  else 0%Q.

Definition analyse_training_data (self : KnowBe4ReportGenerator)
    (users : list user) (enrollments : list enrollment)
    (mandatory_campaigns : list string) : result report :=
  let user_lookup := build_user_lookup users in
  t ← analyse_enrollments mandatory_campaigns tracking_empty enrollments;
  let untrained_user_data := untrained_rows self user_lookup (untrained_users t) in
  let total_users := Z.of_nat (length users) in
  let total_untrained := Z.of_nat (size (untrained_users t)) in
  let completion_rate := completion_rate total_users total_untrained in
  Ok {| report_metrics :=
          {| Total_Users := total_users;
             Total_Untrained_Users := total_untrained;
             Completion_Rate := Binary64.round2 completion_rate |};
        report_untrained_users := untrained_user_data |}.

End Analysis.

(* ===================================================================== *)
(** ** The world of a run: heap, HTTP, log and files *)
(* ===================================================================== *)

(** A dictionary of query parameters, and the location of one. *)
Abbreviation dict := (gmap string value).
Abbreviation loc := positive.

(** What [requests.get] was called with: the URL and the contents of the
    parameter dictionary at that moment. *)
Record request : Type := mk_request {
  url : string;
  query : dict
}.

(** A response object: [status_code], [text], and what [json()] returns
    ([None] when it raises [JSONDecodeError]). *)
Record response (A : Type) : Type := mk_response {
  status_code : Z;
  text : string;
  json : option (list A)
}.

Arguments mk_response {A} _ _ _.
Arguments status_code {A} _.
Arguments text {A} _.
Arguments json {A} _.

(** The outcome of [requests.get]: it raises a [RequestException] of its
    own (timeout, connection failure) or returns a response. *)
Inductive reply (A : Type) : Type :=
| NoResponse
| Response (r : response A).

Arguments NoResponse {A}.
Arguments Response {A} r.

(** [raise_for_status] raises [HTTPError] on a 4xx or 5xx status. *)
Definition raises_for_status {A} (r : response A) : bool :=
  (400 <=? status_code r) && (status_code r <? 600).

Inductive csv_file : Type :=
| MetricsFile (output_dir : string) (timestamp : datetime) (rows : list (string * Q))
| UntrainedUsersFile (output_dir : string) (timestamp : datetime) (rows : list row).

Inductive log_record : Type :=
| ErrorInvalidJson (endpoint text : string)
| ErrorEmptyResponse (endpoint text : string)
| ErrorFetching (endpoint : string)
| ErrorResponseContent (text : string)
| InfoFetched (n : nat) (endpoint : string)
| InfoRelevantCampaigns (n : nat)
| InfoMetricsSaved (output_dir : string) (timestamp : datetime)
| InfoUntrainedSaved (output_dir : string) (timestamp : datetime)
| ErrorGenerateReport (e : exn).

Record world : Type := mk_world {
  heap : gmap loc dict;
  requests_sent : list request;
  log : list log_record;
  files : list csv_file
}.

Definition world_empty : world :=
  {| heap := ∅; requests_sent := []; log := []; files := [] |}.

Definition logger (r : log_record) (w : world) : world :=
  {| heap := heap w; requests_sent := requests_sent w;
     log := log w ++ [r]; files := files w |}.

Definition write_file (f : csv_file) (w : world) : world :=
  {| heap := heap w; requests_sent := requests_sent w;
     log := log w; files := files w ++ [f] |}.

Definition send (r : request) (w : world) : world :=
  {| heap := heap w; requests_sent := requests_sent w ++ [r];
     log := log w; files := files w |}.

Definition store (l : loc) (d : dict) (w : world) : world :=
  {| heap := <[l := d]> (heap w); requests_sent := requests_sent w;
     log := log w; files := files w |}.

Definition contents (l : loc) (w : world) : dict := default ∅ (heap w !! l).

(** A dictionary literal: a new object. *)
Definition new_dict (d : dict) (w : world) : loc * world :=
  let l := fresh (dom (heap w)) in (l, store l d w).

(** A computation in a world: it runs out of fuel ([None]), or leaves a
    world and returns or raises. *)
Definition io (A : Type) : Type := world → option (world * result A).

#[global] Instance io_ret : MRet io := λ A a w, Some (w, Ok a).
#[global] Instance io_bind : MBind io := λ A B k m w,
  match m w with
  | Some (w', Ok a) => k a w'
  | Some (w', Raise e) => Some (w', Raise e)
  | None => None
  end.

Definition io_log (r : log_record) : io unit := λ w, Some (logger r w, Ok tt).
Definition io_write (f : csv_file) : io unit := λ w, Some (write_file f w, Ok tt).
Definition io_result {A} (r : result A) : io A := λ w, Some (w, r).

(** [try: body except Exception as e: handler(e)]. *)
Definition try_except {A} (body : io A) (handler : exn → io A) : io A := λ w,
  match body w with
  | Some (w', Raise e) => handler e w'
  | other => other
  end.

(* ===================================================================== *)
(** ** [_paginated_get] *)
(* ===================================================================== *)

Definition per_page : Z := 500.

(** [request_params = params or {}]: the caller's dictionary itself when
    it is given and not empty, a new empty one otherwise. *)
Definition params_or_new (params : option loc) (w : world) : loc * world :=
  match params with
  | Some l => if bool_decide (contents l w = ∅) then new_dict ∅ w else (l, w)
  | None => new_dict ∅ w
  end.

(** The head of the loop body up to the call of [requests.get]. *)
Definition issue (self : KnowBe4ReportGenerator) (endpoint : string)
    (params : option loc) (page : Z) (w : world) : request * world :=
  let '(request_params, w) := params_or_new params w in
  let w := store request_params
             (<["per_page"%string := VInt per_page]>
                (<["page"%string := VInt page]> (contents request_params w))) w in
  let req := {| url := base_url self +:+ endpoint;
                query := contents request_params w |} in
  (req, send req w).

(** Leaving the loop: the closing log line and the return. *)
Definition finish {A} (endpoint : string) (all_results : list A) : io (list A) := λ w,
  Some (logger (InfoFetched (length all_results) endpoint) w, Ok all_results).

(** The handler of [except requests.RequestException]: it logs the error
    and then reads the local [response], which is bound only once a call
    of [requests.get] has returned. *)
Definition on_request_exception {A} (endpoint : string) (all_results : list A)
    (response : option (response A)) : io (list A) := λ w,
  let w := logger (ErrorFetching endpoint) w in
  match response with
  | None => Some (w, Raise UnboundLocalError)
  | Some r => finish endpoint all_results (logger (ErrorResponseContent (text r)) w)
  end.

(** The [while True] loop, one iteration per unit of fuel.  [response] is
    the local variable of that name, [None] while it is unbound. *)
Fixpoint paginate {A} (fuel : nat) (self : KnowBe4ReportGenerator)
    (server : request → reply A) (endpoint : string) (params : option loc)
    (all_results : list A) (page : Z) (response : option (response A))
    : io (list A) := λ w,
  match fuel with
  | O => None
  | S fuel =>
      let '(req, w) := issue self endpoint params page w in
      match server req with
      | NoResponse => on_request_exception endpoint all_results response w
      | Response r =>
          if raises_for_status r
          then on_request_exception endpoint all_results (Some r) w
          else
            match json r with
            | None =>
                finish endpoint all_results
                  (logger (ErrorInvalidJson endpoint (text r)) w)
            | Some [] =>
                finish endpoint all_results
                  (logger (ErrorEmptyResponse endpoint (text r)) w)
            | Some data =>
                let all_results := all_results ++ data in
                if Z.of_nat (length data) <? per_page
                then finish endpoint all_results w
                else paginate fuel self server endpoint params
                       all_results (page + 1) (Some r) w
            end
      end
  end.

Definition _paginated_get {A} (fuel : nat) (self : KnowBe4ReportGenerator)
    (server : request → reply A) (endpoint : string) (params : option loc)
    : io (list A) :=
  paginate fuel self server endpoint params [] 1 None.

(** [get_users]: the parameters are a new dictionary [{'status': 'active'}]. *)
Definition get_users (fuel : nat) (self : KnowBe4ReportGenerator)
    (server : request → reply user) : io (list user) := λ w,
  let '(l, w) := new_dict {["status"%string := VStr "active"]} w in
  _paginated_get fuel self server "/users" (Some l) w.

Definition get_training_campaigns (fuel : nat) (self : KnowBe4ReportGenerator)
    (server : request → reply campaign) : io (list campaign) :=
  _paginated_get fuel self server "/training/campaigns" None.

(** [get_training_enrollments]: [{'campaign_id': campaign_id}] when the id
    is truthy, [{}] otherwise. *)
Definition get_training_enrollments (fuel : nat) (self : KnowBe4ReportGenerator)
    (server : request → reply enrollment) (campaign_id : option Z)
    : io (list enrollment) := λ w,
  let params :=
    match campaign_id with
    | Some i => if bool_decide (i = 0) then ∅ else {["campaign_id"%string := VInt i]}
    | None => ∅
    end in
  let '(l, w) := new_dict params w in
  _paginated_get fuel self server "/training/enrollments" (Some l) w.

(* ===================================================================== *)
(** ** [generate_report] *)
(* ===================================================================== *)

(** The three collections of the upstream API. *)
Record api : Type := mk_api {
  users_api : request → reply user;
  campaigns_api : request → reply campaign;
  enrollments_api : request → reply enrollment
}.

(** The loop over the relevant campaigns. *)
Fixpoint fetch_enrollments (fuel : nat) (self : KnowBe4ReportGenerator)
    (server : request → reply enrollment) (relevant_campaigns : list campaign)
    (all_enrollments : list enrollment) : io (list enrollment) :=
  match relevant_campaigns with
  | [] => mret all_enrollments
  | campaign :: rest =>
      campaign_enrollments ←
        get_training_enrollments fuel self server (Some (campaign_id campaign));
      fetch_enrollments fuel self server rest (all_enrollments ++ campaign_enrollments)
  end.

(** The part of [generate_report] that assembles the inputs of the
    analysis. *)
Definition fetch_data (fuel : nat) (self : KnowBe4ReportGenerator) (srv : api)
    : io (list user * list enrollment) :=
  users ← get_users fuel self (users_api srv);
  all_campaigns ← get_training_campaigns fuel self (campaigns_api srv);
  let relevant_campaigns :=
    filter (λ campaign, name campaign ∈ mandatory_campaigns self) all_campaigns in
  _ ← io_log (InfoRelevantCampaigns (length relevant_campaigns));
  all_enrollments ← fetch_enrollments fuel self (enrollments_api srv) relevant_campaigns [];
  mret (users, all_enrollments).

Definition metrics_rows (m : metrics) : list (string * Q) :=
  [("Total Users"%string, inject_Z (Total_Users m));
   ("Total Untrained Users"%string, inject_Z (Total_Untrained_Users m));
   ("Completion Rate (%)"%string, Completion_Rate m)].

(** The part of [generate_report] after the analysis: the two files and
    the closing log lines.  [timestamp] is the later reading of the clock
    that names the files. *)
Definition write_report (output_dir : string) (timestamp : datetime) (r : report)
    : io unit :=
  _ ← io_write (MetricsFile output_dir timestamp (metrics_rows (report_metrics r)));
  _ ← match report_untrained_users r with
      | [] => mret tt
      | rows => io_write (UntrainedUsersFile output_dir timestamp rows)
      end;
  _ ← io_log (InfoMetricsSaved output_dir timestamp);
  io_log (InfoUntrainedSaved output_dir timestamp).

Definition generate_report (fuel : nat) (strptime : string → option datetime)
    (now timestamp : datetime) (self : KnowBe4ReportGenerator) (srv : api)
    (output_dir : string) : io unit :=
  try_except
    ('(users, all_enrollments) ← fetch_data fuel self srv;
     report ← io_result (analyse_training_data strptime now self users
                           all_enrollments (mandatory_campaigns self));
     write_report output_dir timestamp report)
    (λ e, io_log (ErrorGenerateReport e)).

(* ===================================================================== *)
(** ** A parser for zero-padded timestamps *)
(* ===================================================================== *)

(** An instance of the parser the analysis is run with in the examples:
    [YYYY-MM-DDTHH:MM:SSZ] with every field zero-padded, a year from 1 on
    and a day that exists in its month.  (CPython's [strptime] accepts a
    few more spellings, such as unpadded fields; every property below is
    proved for an arbitrary parser.) *)
Definition digit (c : ascii) : option Z :=
  let n := Z.of_nat (nat_of_ascii c) in
  if (48 <=? n) && (n <=? 57) then Some (n - 48) else None.

Fixpoint digits (k : nat) (acc : Z) (s : string) : option (Z * string) :=
  match k with
  | O => Some (acc, s)
  | S k' =>
      match s with
      | String c s' => d ← digit c; digits k' (10 * acc + d) s'
      | EmptyString => None
      end
  end.

Definition expect (c : ascii) (s : string) : option string :=
  match s with
  | String c' s' => if bool_decide (c' = c) then Some s' else None
  | EmptyString => None
  end.

Definition is_leap (y : Z) : bool :=
  ((y mod 4 =? 0) && negb (y mod 100 =? 0)) || (y mod 400 =? 0).

Definition days_in_month (y m : Z) : Z :=
  if m =? 2 then (if is_leap y then 29 else 28)
  else if (m =? 4) || (m =? 6) || (m =? 9) || (m =? 11) then 30
  else 31.

Definition strptime_iso (s : string) : option datetime :=
  '(y, s) ← digits 4 0 s; s ← expect "-" s;
  '(m, s) ← digits 2 0 s; s ← expect "-" s;
  '(d, s) ← digits 2 0 s; s ← expect "T" s;
  '(hh, s) ← digits 2 0 s; s ← expect ":" s;
  '(mm, s) ← digits 2 0 s; s ← expect ":" s;
  '(ss, s) ← digits 2 0 s; s ← expect "Z" s;
  if bool_decide (s = EmptyString)
       && (1 <=? y) && (1 <=? m) && (m <=? 12)
       && (1 <=? d) && (d <=? days_in_month y m)
       && (hh <=? 23) && (mm <=? 59) && (ss <=? 59)
  then Some (mk_datetime y m d hh mm ss 0)
  else None.


(* ===================================================================== *)
(** ** The classification rule in the words of the specification *)
(* ===================================================================== *)

Section Rule.

Variable strptime : string → option datetime.
Variable now : datetime.

(** A due date is present: the enrollment carries one that is not empty. *)
Definition due_date_present (e : enrollment) : bool :=
  bool_decide (is_Some (truthy (due_date e))).

(** The due date has already elapsed at [now]. *)
Definition due_date_elapsed (e : enrollment) : bool :=
  match due_date e with
  | Some s =>
      match strptime s with
      | Some d => datetime_lt d now
      | None => false
      end
  | None => false
  end.

(** The status is not a terminal success, and either no due date is
    present, or one is present and has elapsed. *)
Definition untrained_rule (e : enrollment) : bool :=
  negb (terminal_success (status e))
  && (negb (due_date_present e) || (due_date_present e && due_date_elapsed e)).

(** The enrollment is one of a mandatory campaign and the rule holds. *)
Definition marks (mandatory_campaigns : list string) (e : enrollment) : bool :=
  bool_decide (campaign_name e ∈ mandatory_campaigns) && untrained_rule e.

(** The enrollment is one of a mandatory campaign whose status is not a
    terminal success and whose due date is present and does not parse. *)
Definition malformed (mandatory_campaigns : list string) (e : enrollment) : bool :=
  bool_decide (campaign_name e ∈ mandatory_campaigns)
  && negb (terminal_success (status e))
  && match truthy (due_date e) with
     | Some s => bool_decide (strptime s = None)
     | None => false
     end.

(** The user ids of the enrollments that mark. *)
Definition marked (mandatory_campaigns : list string) (es : list enrollment) : gset Z :=
  list_to_set (user_id <$> filter (λ e, marks mandatory_campaigns e = true) es).

End Rule.

(* ===================================================================== *)
(** ** Vocabulary of the properties *)
(* ===================================================================== *)


(** The page number a request asks for. *)
Definition page_of (r : request) : option Z :=
  match query r !! "page"%string with
  | Some (VInt k) => Some k
  | _ => None
  end.

(** The request asks for page [k] in pages of [per_page] records. *)
Definition asks (r : request) (k : Z) : Prop :=
  query r !! "page"%string = Some (VInt k)
  ∧ query r !! "per_page"%string = Some (VInt per_page).

(** [server] answers a request for page [k] with a good status and the
    records [data]. *)
Definition serves {A} (server : request → reply A) (k : Z) (data : list A) : Prop :=
  ∀ req, asks req k →
    ∃ r, server req = Response r ∧ raises_for_status r = false ∧ json r = Some data.

(** A server over a fixed collection: it reads [page] and [per_page] from
    the query and answers with that slice. *)
Definition dataset_server {A} (dataset : list A) (req : request) : reply A :=
  match query req !! "page"%string, query req !! "per_page"%string with
  | Some (VInt p), Some (VInt n) =>
      Response (mk_response 200 "[...]"
                  (Some (take (Z.to_nat n) (drop (Z.to_nat ((p - 1) * n)) dataset))))
  | _, _ => Response (mk_response 400 "bad request" None)
  end.

(** [d.get(k)] on an insertion-ordered dictionary. *)
Fixpoint dict_get (k : string) (d : row) : option value :=
  match d with
  | [] => None
  | (k', v) :: d' => if bool_decide (k' = k) then Some v else dict_get k d'
  end.

(** The three keys every row of the untrained-users table starts with. *)
Definition base_keys : list string := ["Name"; "Email"; "Manager"]%string.

(** A parameter dictionary with [page] and [per_page] written into it. *)
Definition stamp (page : Z) (d : dict) : dict :=
  <["per_page"%string := VInt per_page]> (<["page"%string := VInt page]> d).

(** The caller's parameters as a dictionary: empty for [None]. *)
Definition base_query (params : option loc) (w : world) : dict :=
  match params with
  | Some l => contents l w
  | None => ∅
  end.

(** The caller's parameters are [None] or an object of the heap. *)
Definition live (params : option loc) (w : world) : Prop :=
  match params with
  | Some l => l ∈ dom (heap w)
  | None => True
  end.

(** The request of a pass of the loop, by the caller's parameters at its
    start. *)
Definition request_of (self : KnowBe4ReportGenerator) (endpoint : string)
    (params : option loc) (page : Z) (w : world) : request :=
  {| url := base_url self +:+ endpoint; query := stamp page (base_query params w) |}.

(** A reply that ends the loop without a page: no response at all, an
    error status, or a body that is not JSON. *)
Definition fails {A} (rep : reply A) : Prop :=
  rep = NoResponse
  ∨ ∃ r, rep = Response r ∧ (raises_for_status r = true ∨ json r = None).

(** The first [n] pages of a collection. *)
Definition full_pages {A} (n : nat) (dataset : list A) : list (list A) :=
  (λ k, take 500 (drop (500 * k) dataset)) <$> seq 0 n.

(** A server of enrollments by campaign: it pages the enrollments [table c]
    of the campaign whose id [c] the query names under [campaign_id], and
    the enrollments [all] of every campaign for a query without one. *)
Definition enrollments_server (table : Z → list enrollment) (all : list enrollment)
    (req : request) : reply enrollment :=
  match query req !! "campaign_id"%string with
  | Some (VInt c) => dataset_server (table c) req
  | _ => dataset_server all req
  end.

(** What a call of [get_training_enrollments] for the campaign id [c] gets
    from such a server: 0 is no filter. *)
Definition enrollments_for (table : Z → list enrollment) (all : list enrollment)
    (c : Z) : list enrollment :=
  if bool_decide (c = 0) then all else table c.

(** The percentage of the specification in exact arithmetic:
    [(total - untrained) / total × 100]. *)
Definition exact_percentage (total untrained : Z) : Q :=
  inject_Z (total - untrained) / inject_Z total * 100.

(** [r] is a binary64 number, its exponent range aside: an integer of at
    most 53 bits times a power of two. *)
Definition binary64_number (r : Q) : Prop :=
  ∃ m e : Z, Z.abs m ≤ 2 ^ 53 ∧ (r == inject_Z m * 2 ^ e)%Q.

(** [r] is [x] rounded to two decimal places, as binary64 holds it: some
    decimal [k/100] is at most half a unit of the second place away from
    [x], up to the error [|x| / 2^51] of a binary64 division and
    multiplication, and [r] is that decimal up to the error
    [|k/100| / 2^53] of writing it as a binary64 number. *)
Definition rounded_to_2_places (x r : Q) : Prop :=
  ∃ k : Z,
    (Qabs (inject_Z k / 100 - x) <= (1 # 200) + Qabs x * (1 # 2 ^ 51))%Q
    ∧ (Qabs (r - inject_Z k / 100) <= Qabs (inject_Z k / 100) * (1 # 2 ^ 53))%Q.

(** A server over a fixed collection that answers the pages up to [n] and
    drops the connection at every later request. *)
Definition outage_after {A} (n : Z) (dataset : list A) (req : request) : reply A :=
  match page_of req with
  | Some p => if bool_decide (p ≤ n) then dataset_server dataset req else NoResponse
  | None => NoResponse
  end.

(* ===================================================================== *)
(** ** Sample data *)
(* ===================================================================== *)

Module Sample.

Definition generator : KnowBe4ReportGenerator :=
  {| base_url := "https://us.api.knowbe4.com/v1";
     mandatory_campaigns := ["Security101"%string];
     optional_user_fields := [] |}.

Definition user_1 : user :=
  {| uid := 1; first_name := "A"; last_name := "B"; email := "a@x.com";
     manager_name := None; other_fields := ∅ |}.

(** A user with a manager and a department. *)
Definition user_2 : user :=
  {| uid := 2; first_name := "C"; last_name := "D"; email := "c@x.com";
     manager_name := Some (VStr "A B");
     other_fields := {["department"%string := VStr "Sales"]} |}.

(** A user whose manager and department are JSON [null]. *)
Definition user_3 : user :=
  {| uid := 3; first_name := "E"; last_name := "F"; email := "e@x.com";
     manager_name := Some VNone;
     other_fields := {["department"%string := VNone]} |}.

(** A generator that reports two optional fields. *)
Definition generator_fields : KnowBe4ReportGenerator :=
  {| base_url := "https://us.api.knowbe4.com/v1";
     mandatory_campaigns := ["Security101"%string];
     optional_user_fields := ["department"; "location"]%string |}.

(** Midnight, 1 January 2024. *)
Definition clock : datetime := mk_datetime 2024 1 1 0 0 0 0.

(** The last microsecond of 2023. *)
Definition clock_before : datetime := mk_datetime 2023 12 31 23 59 59 999999.

Definition enrol (i : Z) (due : option string) (st : string) : enrollment :=
  {| user_id := i; campaign_name := "Security101"; due_date := due; status := Some st |}.

Definition failed_2000 : enrollment := enrol 1 (Some "2000-01-01T00:00:00Z"%string) "Failed".
Definition passed_2000 : enrollment := enrol 1 (Some "2000-01-01T00:00:00Z"%string) "Passed".
Definition due_at_clock : enrollment := enrol 1 (Some "2024-01-01T00:00:00Z"%string) "In Progress".
Definition due_before_clock : enrollment :=
  enrol 1 (Some "2023-12-31T23:59:59Z"%string) "In Progress".
Definition failed_empty_due : enrollment := enrol 1 (Some ""%string) "Failed".
Definition failed_3 : enrollment := enrol 3 None "Failed".
Definition stranger_98 : enrollment := enrol 98 None "Failed".
Definition stranger_99 : enrollment := enrol 99 None "Failed".
Definition completed_garbled : enrollment := enrol 1 (Some "01/01/2000"%string) "Completed".
Definition failed_garbled : enrollment := enrol 1 (Some "01/01/2000"%string) "Failed".
Definition stranger_garbled : enrollment := enrol 98 (Some "01/01/2000"%string) "Failed".

(** A collection of 1137 users. *)
Definition roster : list user :=
  (λ i, {| uid := Z.of_nat i; first_name := "U"; last_name := "N";
           email := "u@x.com"; manager_name := None; other_fields := ∅ |})
    <$> seq 1 1137.

(** A caller's parameter dictionary [{'status': 'active'}] at location 1. *)
Definition caller_world : world :=
  store 1%positive {["status"%string := VStr "active"]} world_empty.

(** An upstream with one user, the mandatory campaign, and one enrollment
    whose due date is not a timestamp. *)
Definition upstream : api :=
  {| users_api := dataset_server [user_1];
     campaigns_api := dataset_server [{| name := "Security101"; campaign_id := 7 |}];
     enrollments_api := dataset_server [failed_garbled] |}.

(** The world the fetches from [upstream] leave behind. *)
Definition after_fetch : world :=
  match fetch_data 1 generator upstream world_empty with
  | Some (w, _) => w
  | None => world_empty
  end.

(** The reports of one user who is untrained, and who is trained. *)
Definition report_untrained : report :=
  {| report_metrics :=
       {| Total_Users := 1; Total_Untrained_Users := 1; Completion_Rate := 0 |};
     report_untrained_users :=
       [[("Name"%string, VStr "A B"); ("Email"%string, VStr "a@x.com");
         ("Manager"%string, VStr "N/A")]] |}.

(** Three users, the first of them untrained: 66.67, the binary64 number
    [4691484174324859 / 2^46]. *)
Definition report_two_thirds : report :=
  {| report_metrics :=
       {| Total_Users := 3; Total_Untrained_Users := 1;
          Completion_Rate := 4691484174324859 # 70368744177664 |};
     report_untrained_users :=
       [[("Name"%string, VStr "A B"); ("Email"%string, VStr "a@x.com");
         ("Manager"%string, VStr "N/A")]] |}.

(** Three users, two of them untrained: 33.33, the binary64 number
    [4690780486883082 / 2^47]. *)
Definition report_one_third : report :=
  {| report_metrics :=
       {| Total_Users := 3; Total_Untrained_Users := 2;
          Completion_Rate := 4690780486883082 # 140737488355328 |};
     report_untrained_users :=
       [[("Name"%string, VStr "E F"); ("Email"%string, VStr "e@x.com");
         ("Manager"%string, VNone)];
        [("Name"%string, VStr "A B"); ("Email"%string, VStr "a@x.com");
         ("Manager"%string, VStr "N/A")]] |}.

Definition report_trained : report :=
  {| report_metrics :=
       {| Total_Users := 1; Total_Untrained_Users := 0;
          Completion_Rate := Binary64.round2 (completion_rate 1 0) |};
     report_untrained_users := [] |}.

(** The world after a call with the caller's dictionary of [caller_world]. *)
Definition after_call : world :=
  match _paginated_get 1 generator (dataset_server [user_1]) "/users"
          (Some 1%positive) caller_world with
  | Some (w, _) => w
  | None => caller_world
  end.

(** An upstream with one user, the mandatory campaign, and one enrollment
    that failed and is overdue. *)
Definition upstream_overdue : api :=
  {| users_api := dataset_server [user_1];
     campaigns_api := dataset_server [{| name := "Security101"; campaign_id := 7 |}];
     enrollments_api := dataset_server [failed_2000] |}.

(** The world a run of the report against [upstream_overdue] leaves behind. *)
Definition after_report : world :=
  match generate_report 1 strptime_iso clock clock generator upstream_overdue "."
          world_empty with
  | Some (w, _) => w
  | None => world_empty
  end.

(** An upstream that answers no request. *)
Definition offline : api :=
  {| users_api := λ _, NoResponse;
     campaigns_api := λ _, NoResponse;
     enrollments_api := λ _, NoResponse |}.

(** An upstream whose only campaign is not a mandatory one. *)
Definition upstream_other : api :=
  {| users_api := dataset_server [user_1];
     campaigns_api := dataset_server [{| name := "Phishing"; campaign_id := 8 |}];
     enrollments_api := dataset_server [failed_2000] |}.

(** The worlds after the users and after the campaigns of [upstream_other]
    were fetched. *)
Definition after_users : world :=
  match get_users 1 generator (users_api upstream_other) world_empty with
  | Some (w, _) => w
  | None => world_empty
  end.

Definition after_campaigns : world :=
  match get_training_campaigns 1 generator (campaigns_api upstream_other)
          after_users with
  | Some (w, _) => w
  | None => after_users
  end.

End Sample.

(* ===================================================================== *)
(** * Properties *)
(* ===================================================================== *)

(* ===================================================================== *)
(** ** The rounding of binary64 *)
(* ===================================================================== *)

Module Binary64Facts.

Import Binary64.
Local Open Scope Q_scope.

Lemma two_neq0 : ~ 2 == 0.
Proof. discriminate. Qed.

Lemma pow2_pos (k : Z) : 0 < 2 ^ k.
Proof. apply Qpower_0_lt. reflexivity. Qed.

Lemma pow2_of_Z (k : Z) : (0 <= k)%Z -> 2 ^ k == inject_Z (2 ^ k).
Proof. intros H. rewrite Zpower_Qpower by assumption. reflexivity. Qed.

Lemma pow2_le (a b : Z) : (a <= b)%Z -> 2 ^ a <= 2 ^ b.
Proof. intros H. apply Qpower_le_compat_l; [assumption | discriminate]. Qed.

Lemma pow2_lt_inv (a b : Z) : 2 ^ a < 2 ^ b -> (a < b)%Z.
Proof.
  intros H. destruct (Z_lt_le_dec a b) as [Hlt | Hge]; [assumption |].
  apply pow2_le in Hge. exfalso. apply (Qlt_irrefl (2 ^ a)).
  eapply Qlt_le_trans; eassumption.
Qed.

Lemma ilog2_spec (q : Q) : 0 < q -> 2 ^ ilog2 q <= q /\ q < 2 ^ (ilog2 q + 1).
Proof.
  intros Hq. destruct q as [n d]. unfold Qlt in Hq. simpl in Hq.
  assert (Hn : (0 < n)%Z) by lia.
  pose proof (Z.log2_spec n Hn) as [Hn1 Hn2].
  pose proof (Z.log2_spec (Zpos d) ltac:(lia)) as [Hd1 Hd2].
  pose proof (Z.log2_nonneg n) as Ha. pose proof (Z.log2_nonneg (Zpos d)) as Hb.
  unfold ilog2. simpl Qnum. simpl Qden.
  set (a := Z.log2 n) in *. set (b := Z.log2 (Zpos d)) in *.
  assert (Hq' : n # d == inject_Z n / inject_Z (Zpos d)) by apply Qmake_Qdiv.
  assert (Hdpos : 0 < inject_Z (Zpos d)) by reflexivity.
  assert (Hup : n # d < 2 ^ (a - b + 1)).
  { replace (a - b + 1)%Z with ((a + 1) - b)%Z by lia.
    rewrite Qpower_minus by apply two_neq0.
    rewrite Hq'. rewrite (pow2_of_Z (a + 1)) by lia. rewrite (pow2_of_Z b) by lia.
    apply Qlt_shift_div_l.
    - rewrite <- pow2_of_Z by lia. apply pow2_pos.
    - unfold Qdiv. rewrite <- Qmult_assoc. rewrite (Qmult_comm (/ _)).
      rewrite Qmult_assoc. apply Qlt_shift_div_r; [assumption |].
      rewrite <- !inject_Z_mult. rewrite <- Zlt_Qlt. nia. }
  assert (Hlow : 2 ^ (a - b - 1) <= n # d).
  { replace (a - b - 1)%Z with (a - (b + 1))%Z by lia.
    rewrite Qpower_minus by apply two_neq0.
    rewrite Hq'. rewrite (pow2_of_Z a) by lia. rewrite (pow2_of_Z (b + 1)) by lia.
    apply Qle_shift_div_r.
    - rewrite <- pow2_of_Z by lia. apply pow2_pos.
    - unfold Qdiv. rewrite <- Qmult_assoc. rewrite (Qmult_comm (/ _)).
      rewrite Qmult_assoc. apply Qle_shift_div_l; [assumption |].
      rewrite <- !inject_Z_mult. rewrite <- Zle_Qle. nia. }
  destruct (Qle_bool (2 ^ (a - b)) (n # d)) eqn:E.
  - split; [apply Qle_bool_iff; assumption | assumption].
  - split; [assumption |].
    replace (a - b - 1 + 1)%Z with (a - b)%Z by lia.
    apply Qnot_le_lt. intros H. apply Qle_bool_iff in H. congruence.
Qed.

Lemma round_half_even_floor (q : Q) :
  round_half_even q = Qfloor q \/ round_half_even q = (Qfloor q + 1)%Z.
Proof.
  unfold round_half_even.
  destruct (Qcompare _ _); [destruct (Z.even _) | |]; auto.
Qed.

Lemma round_half_even_Z (z : Z) : round_half_even (inject_Z z) = z.
Proof.
  unfold round_half_even. rewrite Qfloor_Z.
  destruct (Qcompare (inject_Z z - inject_Z z) (1 # 2)) eqn:E; [| reflexivity |].
  - apply Qeq_alt in E. lra.
  - apply Qgt_alt in E. lra.
Qed.

Lemma round_half_even_mono (x y : Q) :
  x <= y -> (round_half_even x <= round_half_even y)%Z.
Proof.
  intros Hxy. pose proof (Qfloor_resp_le _ _ Hxy) as Hf.
  destruct (Z.eq_dec (Qfloor x) (Qfloor y)) as [Heq | Hne].
  - unfold round_half_even. rewrite <- Heq.
    destruct (Qcompare (x - inject_Z (Qfloor x)) (1 # 2)) eqn:Ex;
      destruct (Qcompare (y - inject_Z (Qfloor x)) (1 # 2)) eqn:Ey;
      try (destruct (Z.even (Qfloor x))); try lia; exfalso;
      repeat match goal with
             | H : Qcompare _ _ = Eq |- _ => apply Qeq_alt in H
             | H : Qcompare _ _ = Lt |- _ => apply Qlt_alt in H
             | H : Qcompare _ _ = Gt |- _ => apply Qgt_alt in H
             end; lra.
  - destruct (round_half_even_floor x) as [-> | ->];
      destruct (round_half_even_floor y) as [-> | ->]; lia.
Qed.

Lemma round_half_even_le (x : Q) (z : Z) :
  x <= inject_Z z -> (round_half_even x <= z)%Z.
Proof.
  intros H. rewrite <- (round_half_even_Z z). apply round_half_even_mono, H.
Qed.

Lemma round_half_even_ge (x : Q) (z : Z) :
  inject_Z z <= x -> (z <= round_half_even x)%Z.
Proof.
  intros H. rewrite <- (round_half_even_Z z). apply round_half_even_mono, H.
Qed.

Lemma rn_pos_nonneg (q : Q) : 0 < q -> 0 <= rn_pos q.
Proof.
  intros Hq. unfold rn_pos. apply Qmult_le_0_compat.
  - change 0 with (inject_Z 0). rewrite <- Zle_Qle.
    apply round_half_even_ge. simpl. apply Qlt_le_weak.
    apply Qlt_shift_div_l; [apply pow2_pos |]. ring_simplify. assumption.
  - apply Qlt_le_weak, pow2_pos.
Qed.

Lemma rn_pos_le (q : Q) (M E : Z) :
  0 < q -> q <= inject_Z M * 2 ^ E -> (2 ^ 52 <= M < 2 ^ 53)%Z ->
  rn_pos q <= inject_Z M * 2 ^ E.
Proof.
  intros Hq Hle HM. destruct (ilog2_spec q Hq) as [Hlo Hhi].
  unfold rn_pos. set (e := (ilog2 q - 52)%Z).
  assert (HeE : (e <= E)%Z).
  { assert (Hlt : 2 ^ ilog2 q < 2 ^ (E + 53)).
    { eapply Qle_lt_trans; [exact Hlo |]. eapply Qle_lt_trans; [exact Hle |].
      rewrite Qpower_plus by apply two_neq0. rewrite (Qmult_comm (2 ^ E)).
      apply Qmult_lt_compat_r; [apply pow2_pos |].
      rewrite (pow2_of_Z 53) by lia. rewrite <- Zlt_Qlt. lia. }
    apply pow2_lt_inv in Hlt. unfold e. lia. }
  destruct (Z.eq_dec e E) as [-> | Hne].
  - apply Qmult_le_compat_r; [| apply Qlt_le_weak, pow2_pos].
    rewrite <- Zle_Qle. apply round_half_even_le.
    apply Qle_shift_div_r; [apply pow2_pos | assumption].
  - apply Qle_trans with (inject_Z (2 ^ 53) * 2 ^ e).
    + apply Qmult_le_compat_r; [| apply Qlt_le_weak, pow2_pos].
      rewrite <- Zle_Qle. apply round_half_even_le.
      apply Qle_shift_div_r; [apply pow2_pos |].
      rewrite <- (pow2_of_Z 53) by lia. rewrite <- Qpower_plus by apply two_neq0.
      apply Qlt_le_weak. replace (53 + e)%Z with (ilog2 q + 1)%Z by (unfold e; lia).
      assumption.
    + apply Qle_trans with (inject_Z (2 ^ 52) * 2 ^ E).
      * rewrite <- !pow2_of_Z by lia. rewrite <- !Qpower_plus by apply two_neq0.
        apply pow2_le. lia.
      * apply Qmult_le_compat_r; [| apply Qlt_le_weak, pow2_pos].
        rewrite <- Zle_Qle. lia.
Qed.

(** Rounding stays between zero and any representable bound. *)
Lemma rn_range (q : Q) (M E : Z) :
  0 <= q -> q <= inject_Z M * 2 ^ E -> (2 ^ 52 <= M < 2 ^ 53)%Z ->
  0 <= rn q /\ rn q <= inject_Z M * 2 ^ E.
Proof.
  intros H0 Hle HM. unfold rn. destruct q as [n d]. simpl Qnum.
  destruct n as [| p | p].
  - split; [apply Qle_refl |]. apply Qmult_le_0_compat.
    + change 0 with (inject_Z 0). rewrite <- Zle_Qle. lia.
    + apply Qlt_le_weak, pow2_pos.
  - assert (Hq : 0 < Z.pos p # d) by reflexivity.
    split; [apply rn_pos_nonneg | apply rn_pos_le]; assumption.
  - exfalso. unfold Qle in H0. simpl in H0. lia.
Qed.

Lemma rn_unit (q : Q) : 0 <= q -> q <= 1 -> 0 <= rn q /\ rn q <= 1.
Proof.
  intros H0 H1.
  assert (E1 : 1 == inject_Z (2 ^ 52) * 2 ^ (-52)) by reflexivity.
  destruct (rn_range q (2 ^ 52) (-52) H0) as [Ha Hb].
  - rewrite <- E1. assumption.
  - lia.
  - split; [assumption |]. rewrite E1. assumption.
Qed.

Lemma rn_percent (q : Q) : 0 <= q -> q <= 100 -> 0 <= rn q /\ rn q <= 100.
Proof.
  intros H0 H1.
  assert (E1 : 100 == inject_Z (100 * 2 ^ 46) * 2 ^ (-46)) by reflexivity.
  destruct (rn_range q (100 * 2 ^ 46) (-46) H0) as [Ha Hb].
  - rewrite <- E1. assumption.
  - lia.
  - split; [assumption |]. rewrite E1. assumption.
Qed.

Lemma round2_range (x : Q) : 0 <= x -> x <= 100 -> 0 <= round2 x /\ round2 x <= 100.
Proof.
  intros H0 H1. unfold round2. apply rn_percent.
  - apply Qle_shift_div_l; [reflexivity |]. ring_simplify.
    change 0 with (inject_Z 0). rewrite <- Zle_Qle.
    apply round_half_even_ge. change (inject_Z 0) with 0. lra.
  - apply Qle_shift_div_r; [reflexivity |].
    change (100 * 100) with (inject_Z 10000). rewrite <- Zle_Qle.
    apply round_half_even_le. change (inject_Z 10000) with 10000. lra.
Qed.

Lemma percent_range (k n : Z) :
  (0 <= k <= n)%Z -> (0 < n)%Z ->
  let x := float_mul_int (int_truediv k n) 100 in 0 <= x /\ x <= 100.
Proof.
  intros Hk Hn x. unfold x, float_mul_int, int_truediv.
  assert (Hn' : 0 < inject_Z n) by (change 0 with (inject_Z 0); rewrite <- Zlt_Qlt; lia).
  destruct (rn_unit (inject_Z k / inject_Z n)) as [Ha Hb].
  - apply Qle_shift_div_l; [assumption |]. ring_simplify.
    change 0 with (inject_Z 0). rewrite <- Zle_Qle. lia.
  - apply Qle_shift_div_r; [assumption |]. ring_simplify. rewrite <- Zle_Qle. lia.
  - apply rn_percent.
    + apply Qmult_le_0_compat; [assumption | discriminate].
    + change (inject_Z 100) with 100. lra.
Qed.

End Binary64Facts.

(* ===================================================================== *)
(** ** More on the rounding of binary64 *)
(* ===================================================================== *)

Module Binary64Exact.

Import Binary64 Binary64Facts.
Local Open Scope Q_scope.

Lemma round_half_even_proper (x y : Q) : x == y -> round_half_even x = round_half_even y.
Proof.
  intros Hxy. unfold round_half_even.
  assert (Hf : Qfloor x = Qfloor y) by (by rewrite Hxy).
  rewrite Hf. by rewrite Hxy.
Qed.

Lemma ilog2_unique (q : Q) (c : Z) :
  0 < q -> 2 ^ c <= q -> q < 2 ^ (c + 1) -> ilog2 q = c.
Proof.
  intros Hq Hlo Hhi. destruct (ilog2_spec q Hq) as [Hlo' Hhi'].
  assert (H1 : (c < ilog2 q + 1)%Z)
    by (apply pow2_lt_inv; eapply Qle_lt_trans; eassumption).
  assert (H2 : (ilog2 q < c + 1)%Z)
    by (apply pow2_lt_inv; eapply Qle_lt_trans; eassumption).
  lia.
Qed.

(** A value with a 53-bit significand is its own rounding. *)
Lemma rn_representable (q : Q) (M E : Z) :
  q == inject_Z M * 2 ^ E -> (2 ^ 52 <= M < 2 ^ 53)%Z -> rn q == q.
Proof.
  intros Hq HM.
  assert (HMpos : 0 < inject_Z M)
    by (change 0 with (inject_Z 0); rewrite <- Zlt_Qlt; lia).
  assert (Hpos : 0 < q).
  { rewrite Hq. apply Qmult_lt_0_compat; [exact HMpos | apply pow2_pos]. }
  assert (He : ilog2 q = (E + 52)%Z).
  { apply ilog2_unique; [exact Hpos | |]; rewrite Hq.
    - rewrite Qpower_plus by apply two_neq0. rewrite Qmult_comm.
      apply Qmult_le_compat_r; [| apply Qlt_le_weak, pow2_pos].
      rewrite (pow2_of_Z 52) by lia. rewrite <- Zle_Qle. lia.
    - replace (E + 52 + 1)%Z with (E + 53)%Z by lia.
      rewrite Qpower_plus by apply two_neq0. rewrite (Qmult_comm (2 ^ E)).
      apply Qmult_lt_compat_r; [apply pow2_pos |].
      rewrite (pow2_of_Z 53) by lia. rewrite <- Zlt_Qlt. lia. }
  unfold rn. destruct q as [n d]. unfold Qlt in Hpos. simpl in Hpos.
  destruct n as [| p | p]; simpl Qnum; try lia.
  unfold rn_pos. rewrite He. replace (E + 52 - 52)%Z with E by lia.
  assert (Hdiv : (Z.pos p # d) / 2 ^ E == inject_Z M).
  { rewrite Hq. field. apply Qnot_eq_sym, Qlt_not_eq, pow2_pos. }
  rewrite (round_half_even_proper _ _ Hdiv), round_half_even_Z.
  symmetry. exact Hq.
Qed.

Lemma rn_one (q : Q) : q == 1 -> rn q == 1.
Proof.
  intros Hq. rewrite (rn_representable q (2 ^ 52) (-52)); [exact Hq | | lia].
  rewrite Hq. reflexivity.
Qed.

Lemma rn_hundred (q : Q) : q == 100 -> rn q == 100.
Proof.
  intros Hq. rewrite (rn_representable q (100 * 2 ^ 46) (-46)); [exact Hq | | lia].
  rewrite Hq. reflexivity.
Qed.

(** Nobody untrained: [n / n * 100] rounded is 100. *)
Lemma percent_full (n : Z) :
  (0 < n)%Z -> round2 (float_mul_int (int_truediv n n) 100) == 100.
Proof.
  intros Hn. unfold round2, float_mul_int, int_truediv.
  assert (Hn' : ~ inject_Z n == 0).
  { change 0 with (inject_Z 0). rewrite inject_Z_injective. lia. }
  assert (H1 : rn (inject_Z n / inject_Z n) == 1) by (apply rn_one; by field).
  assert (H2 : rn (rn (inject_Z n / inject_Z n) * inject_Z 100) == 100).
  { apply rn_hundred. rewrite H1. reflexivity. }
  apply rn_hundred.
  assert (H3 : rn (rn (inject_Z n / inject_Z n) * inject_Z 100) * 100 == inject_Z 10000)
    by (rewrite H2; reflexivity).
  rewrite (round_half_even_proper _ _ H3), round_half_even_Z. reflexivity.
Qed.

(** Everybody untrained: [0 / n * 100] rounded is 0. *)
Lemma percent_none (n : Z) : round2 (float_mul_int (int_truediv 0 n) 100) = 0.
Proof. reflexivity. Qed.


Lemma ilog2_mono (x y : Q) : 0 < x -> x <= y -> (ilog2 x <= ilog2 y)%Z.
Proof.
  intros Hx Hxy. assert (Hy : 0 < y) by (eapply Qlt_le_trans; eassumption).
  destruct (ilog2_spec x Hx) as [Hlo _]. destruct (ilog2_spec y Hy) as [_ Hhi].
  assert (H : (ilog2 x < ilog2 y + 1)%Z).
  { apply pow2_lt_inv. eapply Qle_lt_trans; [exact Hlo |].
    eapply Qle_lt_trans; eassumption. }
  lia.
Qed.

Lemma rn_pos_lower (q : Q) : 0 < q -> inject_Z (2 ^ 52) * 2 ^ (ilog2 q - 52) <= rn_pos q.
Proof.
  intros Hq. destruct (ilog2_spec q Hq) as [Hlo _]. unfold rn_pos.
  apply Qmult_le_compat_r; [| apply Qlt_le_weak, pow2_pos].
  rewrite <- Zle_Qle. apply round_half_even_ge.
  apply Qle_shift_div_l; [apply pow2_pos |].
  rewrite <- (pow2_of_Z 52) by lia. rewrite <- Qpower_plus by apply two_neq0.
  replace (52 + (ilog2 q - 52))%Z with (ilog2 q) by lia. exact Hlo.
Qed.

Lemma rn_pos_upper (q : Q) : 0 < q -> rn_pos q <= inject_Z (2 ^ 53) * 2 ^ (ilog2 q - 52).
Proof.
  intros Hq. destruct (ilog2_spec q Hq) as [_ Hhi]. unfold rn_pos.
  apply Qmult_le_compat_r; [| apply Qlt_le_weak, pow2_pos].
  rewrite <- Zle_Qle. apply round_half_even_le.
  apply Qle_shift_div_r; [apply pow2_pos |].
  rewrite <- (pow2_of_Z 53) by lia. rewrite <- Qpower_plus by apply two_neq0.
  replace (53 + (ilog2 q - 52))%Z with (ilog2 q + 1)%Z by lia.
  apply Qlt_le_weak. exact Hhi.
Qed.

Lemma rn_pos_mono (x y : Q) : 0 < x -> x <= y -> rn_pos x <= rn_pos y.
Proof.
  intros Hx Hxy. assert (Hy : 0 < y) by (eapply Qlt_le_trans; eassumption).
  pose proof (ilog2_mono x y Hx Hxy) as He.
  destruct (Z.eq_dec (ilog2 x) (ilog2 y)) as [Heq | Hne].
  - unfold rn_pos. rewrite Heq.
    apply Qmult_le_compat_r; [| apply Qlt_le_weak, pow2_pos].
    rewrite <- Zle_Qle. apply round_half_even_mono.
    apply Qmult_le_compat_r; [exact Hxy |].
    apply Qlt_le_weak, Qinv_lt_0_compat, pow2_pos.
  - eapply Qle_trans; [apply rn_pos_upper; exact Hx |].
    eapply Qle_trans; [| apply rn_pos_lower; exact Hy].
    rewrite <- (pow2_of_Z 53), <- (pow2_of_Z 52) by lia.
    rewrite <- !Qpower_plus by apply two_neq0. apply pow2_le. lia.
Qed.

Lemma rn_sign (q : Q) :
  (0 < q -> 0 <= rn q) /\ (q <= 0 -> rn q <= 0).
Proof.
  unfold rn. destruct q as [n d]. destruct n as [| p | p]; simpl Qnum; split; intros H.
  - apply Qle_refl.
  - apply Qle_refl.
  - by apply rn_pos_nonneg.
  - exfalso. unfold Qle in H. simpl in H. lia.
  - exfalso. unfold Qlt in H. simpl in H. lia.
  - assert (Hneg : 0 < - (Z.neg p # d)) by reflexivity.
    apply rn_pos_nonneg in Hneg. lra.
Qed.

(** Rounding is monotone. *)
Lemma rn_mono (x y : Q) : x <= y -> rn x <= rn y.
Proof.
  intros Hxy.
  destruct (Qlt_le_dec 0 x) as [Hx | Hx]; destruct (Qlt_le_dec 0 y) as [Hy | Hy].
  - unfold rn. destruct x as [n d], y as [n' d'].
    unfold Qlt in Hx, Hy. simpl in Hx, Hy.
    destruct n as [| p | p]; try lia. destruct n' as [| p' | p']; try lia.
    simpl Qnum. apply rn_pos_mono; [reflexivity | exact Hxy].
  - exfalso. lra.
  - eapply Qle_trans; [apply rn_sign; exact Hx | apply rn_sign; exact Hy].
  - destruct (Qeq_dec y 0) as [Hy0 | Hy0].
    + assert (Hry : rn y = 0).
      { unfold rn. destruct y as [n' d']. unfold Qeq in Hy0. simpl in Hy0.
        replace n' with 0%Z by lia. reflexivity. }
      rewrite Hry. apply rn_sign. exact Hx.
    + assert (Hyneg : y < 0) by (apply Qle_lteq in Hy as [Hy | Hy]; [exact Hy | contradiction]).
      assert (Hxneg : x < 0) by lra.
      unfold rn. destruct x as [n d], y as [n' d'].
      unfold Qlt in Hxneg, Hyneg. simpl in Hxneg, Hyneg.
      destruct n as [| p | p]; try lia. destruct n' as [| p' | p']; try lia.
      simpl Qnum.
      assert (Hm : rn_pos (- (Z.neg p' # d')) <= rn_pos (- (Z.neg p # d))).
      { apply rn_pos_mono; [reflexivity |]. lra. }
      apply Qopp_le_compat. exact Hm.
Qed.

Lemma round2_mono (x y : Q) : x <= y -> round2 x <= round2 y.
Proof.
  intros Hxy. unfold round2. apply rn_mono.
  apply Qmult_le_compat_r; [| discriminate].
  rewrite <- Zle_Qle. apply round_half_even_mono. lra.
Qed.

(** More untrained ids among the same users: the rate is not higher. *)
Lemma percent_antitone (n k k' : Z) :
  (0 < n)%Z -> (k <= k')%Z ->
  round2 (float_mul_int (int_truediv (n - k') n) 100)
  <= round2 (float_mul_int (int_truediv (n - k) n) 100).
Proof.
  intros Hn Hk. apply round2_mono. unfold float_mul_int. apply rn_mono.
  apply Qmult_le_compat_r; [| discriminate].
  unfold int_truediv. apply rn_mono.
  assert (Hn' : 0 < inject_Z n) by (change 0 with (inject_Z 0); rewrite <- Zlt_Qlt; lia).
  apply Qmult_le_compat_r; [| apply Qlt_le_weak, Qinv_lt_0_compat, Hn'].
  rewrite <- Zle_Qle. lia.
Qed.

End Binary64Exact.

(* ===================================================================== *)
(** ** The error of the binary64 operations *)
(* ===================================================================== *)

Module Binary64Error.

Import Binary64 Binary64Facts Binary64Exact.
Local Open Scope Q_scope.

(** The nearest integer is at most a half away. *)
Lemma round_half_even_close (q : Q) :
  Qabs (inject_Z (round_half_even q) - q) <= 1 # 2.
Proof.
  pose proof (Qfloor_le q) as Hlo. pose proof (Qlt_floor q) as Hhi.
  rewrite inject_Z_plus in Hhi. change (inject_Z 1) with 1 in Hhi.
  apply Qabs_Qle_condition. unfold round_half_even.
  destruct (Qcompare (q - inject_Z (Qfloor q)) (1 # 2)) eqn:E.
  - apply Qeq_alt in E.
    destruct (Z.even (Qfloor q)); [| rewrite inject_Z_plus; change (inject_Z 1) with 1];
      split; lra.
  - apply Qlt_alt in E. split; lra.
  - apply Qgt_alt in E. rewrite inject_Z_plus. change (inject_Z 1) with 1. split; lra.
Qed.

(** Rounding to 53 bits moves a number by at most [2^-53] of itself. *)
Lemma rn_pos_error (q : Q) : 0 < q -> Qabs (rn_pos q - q) <= q * (1 # 2 ^ 53).
Proof.
  intros Hq. destruct (ilog2_spec q Hq) as [Hlo _]. unfold rn_pos.
  set (e := (ilog2 q - 52)%Z).
  pose proof (pow2_pos e) as He.
  pose proof (round_half_even_close (q / 2 ^ e)) as Hc.
  apply Qabs_Qle_condition in Hc as [Hc1 Hc2].
  assert (Hq' : q == q / 2 ^ e * 2 ^ e) by (field; lra).
  assert (Hhalf : 2 ^ e * (1 # 2) <= q * (1 # 2 ^ 53)).
  { assert (H2 : 2 ^ ilog2 q == 2 ^ e * 2 ^ 52).
    { unfold e. rewrite <- Qpower_plus by apply two_neq0. by replace (ilog2 q - 52 + 52)%Z with (ilog2 q) by lia. }
    rewrite H2 in Hlo.
    assert (H52 : (2:Q) ^ 52 == 4503599627370496) by reflexivity.
    assert (H53 : (1 # 2 ^ 53) == (1 # 9007199254740992)) by reflexivity.
    rewrite H52 in Hlo. rewrite H53. clear -Hlo He.
    generalize dependent (2 ^ e). intros P HP1 HP2. lra. }
  apply Qabs_Qle_condition.
  set (m := inject_Z (round_half_even (q / 2 ^ e))) in *.
  assert (Hm1 : (m - q / 2 ^ e) * 2 ^ e <= (1 # 2) * 2 ^ e)
    by (apply Qmult_le_compat_r; lra).
  assert (Hm2 : (- (1 # 2)) * 2 ^ e <= (m - q / 2 ^ e) * 2 ^ e)
    by (apply Qmult_le_compat_r; lra).
  assert (Heq : m * 2 ^ e - q == (m - q / 2 ^ e) * 2 ^ e) by (field; lra).
  rewrite Heq. split; lra.
Qed.

Lemma rn_error (q : Q) : Qabs (rn q - q) <= Qabs q * (1 # 2 ^ 53).
Proof.
  unfold rn. destruct q as [n d]. destruct n as [| p | p]; simpl Qnum.
  - apply Qabs_Qle_condition. split; vm_compute; discriminate.
  - assert (Hq : 0 < Zpos p # d) by reflexivity.
    rewrite (Qabs_pos (Zpos p # d)) by (by apply Qlt_le_weak).
    by apply rn_pos_error.
  - assert (Hq : 0 < - (Zneg p # d)) by reflexivity.
    assert (Hn : Zneg p # d < 0) by reflexivity.
    rewrite (Qabs_neg (Zneg p # d)) by (by apply Qlt_le_weak).
    pose proof (rn_pos_error _ Hq) as H.
    apply Qabs_Qle_condition in H. apply Qabs_Qle_condition. split; lra.
Qed.

(** Only 0 is rounded to 0. *)
Lemma rn_zero (q : Q) : rn q == 0 -> q == 0.
Proof.
  intros H0. pose proof (rn_error q) as H.
  apply Qabs_Qle_condition in H as [H1 H2]. rewrite H0 in H1, H2.
  assert (H53 : (1 # 2 ^ 53) == (1 # 9007199254740992)) by reflexivity.
  rewrite H53 in H1, H2.
  destruct (Qlt_le_dec q 0) as [Hn | Hp].
  - rewrite (Qabs_neg q) in H1, H2 by lra. lra.
  - rewrite (Qabs_pos q) in H1, H2 by lra. lra.
Qed.

(** The completion rate of the code against the exact quotient: the rate
    is the binary64 number of a decimal [k/100] that is at most half a unit
    of the second place away from the exact percentage, up to the error of
    the division and the multiplication. *)
Lemma rate_rounding (a t : Z) :
  (0 < t)%Z ->
  exists k : Z,
    round2 (float_mul_int (int_truediv a t) 100) = rn (inject_Z k / 100)
    /\ Qabs (inject_Z k / 100 - inject_Z a / inject_Z t * 100)
       <= (1 # 200) + Qabs (inject_Z a / inject_Z t * 100) * (1 # 2 ^ 51).
Proof.
  intros Ht. unfold round2, float_mul_int, int_truediv.
  set (q := inject_Z a / inject_Z t).
  set (y := rn q). set (x := rn (y * inject_Z 100)).
  exists (round_half_even (x * 100)). split; [reflexivity |].
  pose proof (rn_error q) as Hy. fold y in Hy.
  pose proof (rn_error (y * inject_Z 100)) as Hx. fold x in Hx.
  pose proof (round_half_even_close (x * 100)) as Hk.
  change (inject_Z 100) with 100 in *.
  set (k := inject_Z (round_half_even (x * 100))) in *.
  assert (H53 : (1 # 2 ^ 53) == (1 # 9007199254740992)) by reflexivity.
  assert (H51 : (1 # 2 ^ 51) == (1 # 2251799813685248)) by reflexivity.
  rewrite H53 in Hy, Hx. rewrite H51.
  rewrite Qabs_Qmult in Hx |- *. rewrite (Qabs_pos 100) in Hx |- * by discriminate.
  apply Qabs_Qle_condition in Hk as [Hk1 Hk2].
  assert (Hd : k / 100 == k * (1 # 100)) by (by field).
  rewrite Hd. clearbody k x y q.
  destruct (Qlt_le_dec q 0) as [Hq | Hq].
  - rewrite (Qabs_neg q) in Hy |- * by lra.
    apply Qabs_Qle_condition in Hy as [Hy1 Hy2].
    assert (Hyn : y <= 0) by lra.
    rewrite (Qabs_neg y) in Hx by lra.
    apply Qabs_Qle_condition in Hx as [Hx1 Hx2].
    apply Qabs_Qle_condition. split; lra.
  - rewrite (Qabs_pos q) in Hy |- * by lra.
    apply Qabs_Qle_condition in Hy as [Hy1 Hy2].
    assert (Hyn : 0 <= y) by lra.
    rewrite (Qabs_pos y) in Hx by lra.
    apply Qabs_Qle_condition in Hx as [Hx1 Hx2].
    apply Qabs_Qle_condition. split; lra.
Qed.

(** The mantissa of a rounded number has 53 bits. *)
Lemma rn_pos_mantissa (q : Q) :
  0 < q -> (2 ^ 52 <= round_half_even (q / 2 ^ (ilog2 q - 52)) <= 2 ^ 53)%Z.
Proof.
  intros Hq. destruct (ilog2_spec q Hq) as [Hlo Hhi]. split.
  - apply round_half_even_ge.
    apply Qle_shift_div_l; [apply pow2_pos |].
    rewrite <- (pow2_of_Z 52) by lia. rewrite <- Qpower_plus by apply two_neq0.
    replace (52 + (ilog2 q - 52))%Z with (ilog2 q) by lia. exact Hlo.
  - apply round_half_even_le.
    apply Qle_shift_div_r; [apply pow2_pos |].
    rewrite <- (pow2_of_Z 53) by lia. rewrite <- Qpower_plus by apply two_neq0.
    replace (53 + (ilog2 q - 52))%Z with (ilog2 q + 1)%Z by lia.
    apply Qlt_le_weak. exact Hhi.
Qed.

(** What [rn] returns is a binary64 number. *)
Lemma rn_binary64 (q : Q) : binary64_number (rn q).
Proof.
  unfold rn. destruct q as [n d]. destruct n as [| p | p]; simpl Qnum.
  - exists 0%Z, 0%Z. split; [lia | reflexivity].
  - assert (Hq : 0 < Zpos p # d) by reflexivity.
    pose proof (rn_pos_mantissa _ Hq) as Hm.
    exists (round_half_even ((Zpos p # d) / 2 ^ (ilog2 (Zpos p # d) - 52))),
           (ilog2 (Zpos p # d) - 52)%Z.
    split; [lia | reflexivity].
  - assert (Hq : 0 < - (Zneg p # d)) by reflexivity.
    pose proof (rn_pos_mantissa _ Hq) as Hm.
    exists (- round_half_even (- (Zneg p # d) / 2 ^ (ilog2 (- (Zneg p # d)) - 52)))%Z,
           (ilog2 (- (Zneg p # d)) - 52)%Z.
    split; [lia |]. unfold rn_pos. rewrite inject_Z_opp. ring.
Qed.

(** However many ids are untrained, the rate does not exceed 100. *)
Lemma percent_upper (n k : Z) :
  (0 < n)%Z -> (0 <= k)%Z ->
  round2 (float_mul_int (int_truediv (n - k) n) 100) <= 100.
Proof.
  intros Hn Hk.
  eapply Qle_trans; [apply (percent_antitone n 0 k Hn Hk) |].
  rewrite Z.sub_0_r. rewrite (percent_full n Hn). apply Qle_refl.
Qed.

(** A rate of 0 leaves fewer than one part in 19999 of the users. *)
Lemma percent_zero (a t : Z) :
  (0 < t)%Z ->
  round2 (float_mul_int (int_truediv a t) 100) == 0 ->
  (19999 * Z.abs a < t)%Z.
Proof.
  intros Ht H0.
  destruct (rate_rounding a t Ht) as (k & Hr & Hk).
  rewrite Hr in H0. apply rn_zero in H0.
  assert (Hk0 : inject_Z k == 0).
  { assert (H : inject_Z k == inject_Z k / 100 * 100) by field. rewrite H, H0. reflexivity. }
  assert (HT : 0 < inject_Z t) by (change 0 with (inject_Z 0); rewrite <- Zlt_Qlt; lia).
  assert (Habs : Qabs (inject_Z a / inject_Z t * 100) * inject_Z t
                 == 100 * inject_Z (Z.abs a)).
  { rewrite <- (Qabs_pos (inject_Z t)) at 2 by lra. rewrite <- Qabs_Qmult.
    assert (H : inject_Z a / inject_Z t * 100 * inject_Z t == 100 * inject_Z a)
      by (field; lra).
    rewrite H, Qabs_Qmult. rewrite (Qabs_pos 100) by discriminate.
    destruct (Z.abs_spec a) as [[Ha ->] | [Ha ->]].
    - rewrite Qabs_pos; [reflexivity |]. change 0 with (inject_Z 0). rewrite <- Zle_Qle. lia.
    - rewrite Qabs_neg, inject_Z_opp; [reflexivity |].
      change 0 with (inject_Z 0). rewrite <- Zle_Qle. lia. }
  assert (Hk' : Qabs (inject_Z a / inject_Z t * 100)
                <= (1 # 200) + Qabs (inject_Z a / inject_Z t * 100) * (1 # 2 ^ 51)).
  { eapply Qle_trans; [| exact Hk].
    assert (Hd : inject_Z k / 100 - inject_Z a / inject_Z t * 100
                 == - (inject_Z a / inject_Z t * 100)).
    { rewrite H0. ring. }
    rewrite Hd, Qabs_opp. apply Qle_refl. }
  assert (H51 : (1 # 2 ^ 51) == (1 # 2251799813685248)) by reflexivity.
  rewrite H51 in Hk'.
  set (x := Qabs (inject_Z a / inject_Z t * 100)) in *.
  assert (Hx : x * inject_Z t <= ((1 # 200) + x * (1 # 2251799813685248)) * inject_Z t)
    by (apply Qmult_le_compat_r; lra).
  assert (Hx' : ((1 # 200) + x * (1 # 2251799813685248)) * inject_Z t
                == (1 # 200) * inject_Z t + (x * inject_Z t) * (1 # 2251799813685248))
    by ring.
  rewrite Hx' in Hx. rewrite Habs in Hx.
  destruct (Z.eq_dec (Z.abs a) 0%Z) as [-> | Hne]; [lia |].
  assert (Ha1 : 1 <= inject_Z (Z.abs a)).
  { change 1 with (inject_Z 1). rewrite <- Zle_Qle. lia. }
  rewrite Zlt_Qlt, inject_Z_mult. change (inject_Z 19999) with 19999.
  clearbody x. clear -Hx Ha1 HT.
  generalize dependent (inject_Z (Z.abs a)). generalize dependent (inject_Z t).
  intros T HT A HA H1. lra.
Qed.

End Binary64Error.

(** The model of the arithmetic agrees with the kernel's binary64
    operations on sample quotients. *)
Example rn_agrees_third :
  Binary64.agrees (Binary64.int_truediv 1 3)
    (PrimFloat.div (Binary64.float_of_Z 1) (Binary64.float_of_Z 3)) = true.
Proof. vm_compute. reflexivity. Qed.

Example rn_agrees_percentages :
  forallb (λ a, forallb (λ b,
      Binary64.agrees
        (Binary64.float_mul_int (Binary64.int_truediv (Z.of_nat a) (Z.of_nat (S b))) 100)
        (PrimFloat.mul
           (PrimFloat.div (Binary64.float_of_Z (Z.of_nat a))
              (Binary64.float_of_Z (Z.of_nat (S b))))
           (Binary64.float_of_Z 100)))
    (seq 0 40)) (seq 0 40) = true.
Proof. vm_compute. reflexivity. Qed.

Example strptime_iso_2000 :
  strptime_iso "2000-01-01T00:00:00Z" = Some (mk_datetime 2000 1 1 0 0 0 0).
Proof. reflexivity. Qed.

Example strptime_iso_rejects :
  strptime_iso "01/01/2000" = None ∧ strptime_iso "2001-02-29T00:00:00Z" = None.
Proof. split; reflexivity. Qed.

(* ===================================================================== *)
(** ** The compliance analysis *)
(* ===================================================================== *)

Section AnalysisFacts.

Variable strptime : string → option datetime.
Variable now : datetime.

Lemma truthy_Some (o : option string) (s : string) :
  truthy o = Some s ↔ o = Some s ∧ s ≠ EmptyString.
Proof.
  unfold truthy. destruct o as [s' |]; [| split; [discriminate | intros [[=] _]]].
  case_bool_decide as Hs; split.
  - discriminate.
  - intros [[= ->] Hne]. contradiction.
  - intros [= ->]. auto.
  - intros [[= ->] _]. reflexivity.
Qed.

(** The loop body raises on a malformed enrollment and otherwise adds the
    user id exactly when the enrollment marks it. *)
Lemma analyse_enrollment_spec (mandatory : list string) (t : tracking) (e : enrollment) :
  analyse_enrollment strptime now mandatory t e =
    if malformed strptime mandatory e then Raise ValueError
    else Ok {| untrained_users :=
                 if marks strptime now mandatory e
                 then {[user_id e]} ∪ untrained_users t else untrained_users t;
               user_enrollments :=
                 <[user_id e := default [] (user_enrollments t !! user_id e) ++ [e]]>
                   (user_enrollments t) |}.
Proof.
  unfold analyse_enrollment, malformed, marks, untrained_rule,
    due_date_present, due_date_elapsed.
  case_bool_decide; simpl; [| reflexivity].
  destruct (terminal_success (status e)); simpl; [reflexivity |].
  destruct (truthy (due_date e)) as [s |] eqn:Ht; simpl.
  - apply truthy_Some in Ht as [-> _].
    destruct (strptime s) as [d |]; simpl; [destruct (datetime_lt d now) |];
      reflexivity.
  - reflexivity.
Qed.

(** The run returns exactly when no enrollment is malformed. *)
Lemma analyse_enrollments_returns (mandatory : list string) (t : tracking)
    (es : list enrollment) :
  (∀ e, e ∈ es → malformed strptime mandatory e = false) →
  ∃ t', analyse_enrollments strptime now mandatory t es = Ok t'.
Proof.
  revert t. induction es as [| e es IH]; intros t Hok; simpl; [eauto |].
  rewrite analyse_enrollment_spec, (Hok e) by left. simpl.
  apply IH. intros e' He'. apply Hok. by right.
Qed.

Lemma analyse_enrollments_raises (mandatory : list string) (t : tracking)
    (es : list enrollment) (e : enrollment) :
  e ∈ es → malformed strptime mandatory e = true →
  analyse_enrollments strptime now mandatory t es = Raise ValueError.
Proof.
  revert t. induction es as [| e' es IH]; intros t Hin Hbad; [by apply elem_of_nil in Hin |].
  simpl. rewrite analyse_enrollment_spec.
  destruct (malformed strptime mandatory e') eqn:He'; [reflexivity |]. simpl.
  apply elem_of_cons in Hin as [-> | Hin]; [congruence |]. by apply IH.
Qed.

Lemma analyse_enrollments_Ok_inv (mandatory : list string) (t t' : tracking)
    (es : list enrollment) :
  analyse_enrollments strptime now mandatory t es = Ok t' →
  ∀ e, e ∈ es → malformed strptime mandatory e = false.
Proof.
  intros Hrun e He. destruct (malformed strptime mandatory e) eqn:Hbad; [| reflexivity].
  rewrite (analyse_enrollments_raises mandatory t es e He Hbad) in Hrun. discriminate.
Qed.

(** The untrained set after a run: the ids it started with and the user
    ids of the enrollments that mark. *)
Lemma analyse_enrollments_untrained (mandatory : list string) (t t' : tracking)
    (es : list enrollment) :
  analyse_enrollments strptime now mandatory t es = Ok t' →
  untrained_users t' =
    untrained_users t ∪
    list_to_set (user_id <$> filter (λ e, marks strptime now mandatory e = true) es).
Proof.
  revert t. induction es as [| e es IH]; intros t; simpl.
  - intros [= <-]. set_solver.
  - rewrite analyse_enrollment_spec.
    destruct (malformed strptime mandatory e); [discriminate |]. simpl.
    intros Hrun. apply IH in Hrun. rewrite Hrun. simpl.
    rewrite filter_cons. destruct (marks strptime now mandatory e) eqn:Hm.
    + rewrite decide_True by reflexivity. set_solver.
    + rewrite decide_False by discriminate. reflexivity.
Qed.

Lemma elem_of_marked (mandatory : list string) (es : list enrollment) (i : Z) :
  i ∈ (list_to_set (user_id <$> filter (λ e, marks strptime now mandatory e = true) es)
         : gset Z) ↔
  ∃ e, e ∈ es ∧ user_id e = i ∧ campaign_name e ∈ mandatory
       ∧ untrained_rule strptime now e = true.
Proof.
  rewrite elem_of_list_to_set, list_elem_of_fmap. unfold marks. split.
  - intros (e & -> & He). apply list_elem_of_filter in He as [Hm He].
    apply andb_true_iff in Hm as [Hc Hr]. apply bool_decide_eq_true in Hc. eauto.
  - intros (e & He & <- & Hc & Hr). exists e. split; [reflexivity |].
    apply list_elem_of_filter. split; [| assumption].
    apply andb_true_iff. split; [by apply bool_decide_eq_true | assumption].
Qed.





Lemma lex_compare_refl (a : list Z) : lex_compare a a = Eq.
Proof. induction a as [| x a IH]; simpl; [reflexivity |]. by rewrite Z.compare_refl. Qed.

Lemma lex_compare_antisym (a b : list Z) :
  lex_compare b a = CompOpp (lex_compare a b).
Proof.
  revert b. induction a as [| x a IH]; intros [| y b]; simpl; try reflexivity.
  rewrite (Z.compare_antisym x y). destruct (x ?= y); simpl; auto.
Qed.

Lemma datetime_lt_irrefl (d : datetime) : datetime_lt d d = false.
Proof. unfold datetime_lt, datetime_compare. by rewrite lex_compare_refl. Qed.

Lemma datetime_lt_asym (a b : datetime) :
  datetime_lt a b = true → datetime_lt b a = false.
Proof.
  unfold datetime_lt, datetime_compare.
  rewrite (lex_compare_antisym (datetime_fields a) (datetime_fields b)).
  destruct (lex_compare _ _); simpl; congruence.
Qed.

(** C5, as the code has it: for an enrollment of a mandatory campaign with
    status In Progress whose due date parses, the user is classified
    untrained by that enrollment exactly when the due date is strictly
    earlier than the clock reading; a due date equal to the reading, or
    later by any amount, does not classify the user. *)
Theorem due_date_boundary (mandatory : list string) (t : tracking)
    (e : enrollment) (s : string) (d : datetime) :
  campaign_name e ∈ mandatory →
  status e = Some "In Progress"%string →
  due_date e = Some s → s ≠ EmptyString → strptime s = Some d →
  user_id e ∉ untrained_users t →
  ∃ t', analyse_enrollment strptime now mandatory t e = Ok t'
        ∧ (user_id e ∈ untrained_users t' ↔ datetime_lt d now = true)
        ∧ (d = now → user_id e ∉ untrained_users t')
        ∧ (datetime_lt now d = true → user_id e ∉ untrained_users t').
Proof.
  intros Hc Hst Hdue Hne Hparse Hnew.
  assert (Ht : truthy (due_date e) = Some s) by (by apply truthy_Some).
  unfold analyse_enrollment. rewrite bool_decide_eq_true_2 by assumption.
  rewrite Hst, Ht, Hparse. simpl.
  destruct (datetime_lt d now) eqn:Hlt; eexists; (split; [reflexivity |]); simpl.
  - split; [set_solver |]. split.
    + intros ->. by rewrite datetime_lt_irrefl in Hlt.
    + intros Hgt. apply datetime_lt_asym in Hgt. congruence.
  - split; [| by auto]. split; [contradiction | discriminate].
Qed.

(** An enrollment of a mandatory campaign whose status is neither Completed
    nor Passed and whose due-date string does not parse makes the analysis
    raise. *)
Lemma malformed_enrollment_raises (self : KnowBe4ReportGenerator) (users : list user)
    (mandatory : list string) (es : list enrollment) (e : enrollment) (s : string) :
  e ∈ es → campaign_name e ∈ mandatory →
  terminal_success (status e) = false →
  due_date e = Some s → s ≠ EmptyString → strptime s = None →
  analyse_training_data strptime now self users es mandatory = Raise ValueError.
Proof.
  intros He Hc Hst Hdue Hne Hparse. unfold analyse_training_data.
  rewrite (analyse_enrollments_raises mandatory tracking_empty es e He); [reflexivity |].
  unfold malformed. rewrite bool_decide_eq_true_2 by assumption. rewrite Hst.
  rewrite (proj2 (truthy_Some _ _) (conj Hdue Hne)). simpl.
  by apply bool_decide_eq_true_2.
Qed.




Lemma foldl_insert_dom (users : list user) (m : gmap Z user) :
  dom (foldl (λ m u, <[uid u := u]> m) m users) = dom m ∪ list_to_set (uid <$> users).
Proof.
  revert m. induction users as [| u users IH]; intros m; simpl.
  - set_solver.
  - rewrite IH, dom_insert_L. set_solver.
Qed.

Lemma build_user_lookup_None (users : list user) (i : Z) :
  i ∉ uid <$> users → build_user_lookup users !! i = None.
Proof.
  intros Hi. apply not_elem_of_dom. unfold build_user_lookup.
  rewrite foldl_insert_dom, dom_empty_L. set_solver.
Qed.

Lemma size_list_to_set_le (l : list Z) :
  (size (list_to_set l : gset Z) ≤ length l)%nat.
Proof.
  induction l as [| x l IH].
  { rewrite list_to_set_nil, size_empty. reflexivity. }
  rewrite list_to_set_cons, length_cons.
  destruct (decide (x ∈ (list_to_set l : gset Z))) as [Hin | Hout].
  - rewrite (subseteq_union_1_L {[x]} (list_to_set l)) by set_solver. lia.
  - rewrite size_union by set_solver. rewrite size_singleton. lia.
Qed.

(** An id that the lookup does not know contributes no row. *)
Lemma untrained_rows_unmatched (self : KnowBe4ReportGenerator)
    (user_lookup : gmap Z user) (U : gset Z) (i : Z) :
  user_lookup !! i = None →
  untrained_rows self user_lookup ({[i]} ∪ U) ≡ₚ untrained_rows self user_lookup U.
Proof.
  intros Hi. unfold untrained_rows.
  destruct (decide (i ∈ U)) as [Hin | Hout].
  - by rewrite (subseteq_union_1_L {[i]} U) by set_solver.
  - rewrite (elements_union_singleton U i Hout). simpl. by rewrite Hi.
Qed.

Lemma analyse_training_data_Ok (self : KnowBe4ReportGenerator) (users : list user)
    (es : list enrollment) (mandatory : list string) (r : report) :
  analyse_training_data strptime now self users es mandatory = Ok r →
  (∀ e, e ∈ es → malformed strptime mandatory e = false)
  ∧ r = {| report_metrics :=
             {| Total_Users := Z.of_nat (length users);
                Total_Untrained_Users := Z.of_nat (size (marked strptime now mandatory es));
                Completion_Rate :=
                  Binary64.round2
                    (completion_rate (Z.of_nat (length users))
                       (Z.of_nat (size (marked strptime now mandatory es)))) |};
           report_untrained_users :=
             untrained_rows self (build_user_lookup users) (marked strptime now mandatory es) |}.
Proof.
  unfold analyse_training_data.
  destruct (analyse_enrollments strptime now mandatory tracking_empty es)
    as [t | x] eqn:Hrun; simpl; [| discriminate].
  intros [= <-]. split; [by eapply analyse_enrollments_Ok_inv |].
  rewrite (analyse_enrollments_untrained _ _ _ _ Hrun). simpl.
  by rewrite (left_id_L ∅ (∪)).
Qed.

Lemma analyse_training_data_returns (self : KnowBe4ReportGenerator) (users : list user)
    (es : list enrollment) (mandatory : list string) :
  (∀ e, e ∈ es → malformed strptime mandatory e = false) →
  ∃ r, analyse_training_data strptime now self users es mandatory = Ok r.
Proof.
  intros Hok. unfold analyse_training_data.
  destruct (analyse_enrollments_returns mandatory tracking_empty es Hok) as [t ->].
  simpl. eauto.
Qed.


Lemma marked_insert (mandatory : list string) (l1 l2 : list enrollment) (e : enrollment) :
  marked strptime now mandatory (l1 ++ e :: l2) =
    if marks strptime now mandatory e
    then {[user_id e]} ∪ marked strptime now mandatory (l1 ++ l2)
    else marked strptime now mandatory (l1 ++ l2).
Proof.
  unfold marked. rewrite !filter_app, filter_cons, !fmap_app.
  destruct (marks strptime now mandatory e) eqn:Hm.
  - rewrite decide_True by reflexivity. rewrite fmap_cons. set_solver.
  - rewrite decide_False by discriminate. reflexivity.
Qed.

(** C7: the report counts the users as the length of the input list,
    repeated ids included, and the untrained users as the size of the set
    the loop has built, which holds the ids that some enrollment marks.
    The completion rate is 0 for an empty users list and otherwise
    [(total - untrained) / total × 100] rounded to two decimal places: a
    decimal with two places at most half a unit of the second place away
    from the exact percentage (up to the error of the binary64 division
    and multiplication), held as a binary64 number. *)
Theorem metrics_definition (self : KnowBe4ReportGenerator) (users : list user)
    (es : list enrollment) (mandatory : list string) (r : report) :
  analyse_training_data strptime now self users es mandatory = Ok r →
  Total_Users (report_metrics r) = Z.of_nat (length users)
  ∧ (∃ t, analyse_enrollments strptime now mandatory tracking_empty es = Ok t
          ∧ untrained_users t = marked strptime now mandatory es
          ∧ Total_Untrained_Users (report_metrics r) = Z.of_nat (size (untrained_users t)))
  ∧ (users = [] → Completion_Rate (report_metrics r) = 0%Q)
  ∧ (users ≠ [] →
     rounded_to_2_places
       (exact_percentage (Total_Users (report_metrics r))
          (Total_Untrained_Users (report_metrics r)))
       (Completion_Rate (report_metrics r)))
  ∧ binary64_number (Completion_Rate (report_metrics r)).
Proof.
  intros Hr. pose proof Hr as Hrun. apply analyse_training_data_Ok in Hr as [_ ->].
  cbn [report_metrics Total_Users Total_Untrained_Users Completion_Rate].
  split; [reflexivity |]. split.
  { unfold analyse_training_data in Hrun.
    destruct (analyse_enrollments strptime now mandatory tracking_empty es)
      as [t | x] eqn:Ht; [| discriminate].
    exists t. split; [reflexivity |].
    pose proof (analyse_enrollments_untrained _ _ _ _ Ht) as Hset.
    cbn [untrained_users tracking_empty] in Hset. rewrite (left_id_L ∅ (∪)) in Hset.
    split; [exact Hset | by rewrite Hset]. }
  split; [intros ->; reflexivity |].
  split; [| apply Binary64Error.rn_binary64].
  intros Hne. unfold completion_rate.
  assert (Hpos : 0 < Z.of_nat (length users)) by (destruct users; [done | simpl; lia]).
  replace (Z.of_nat (length users) =? 0) with false by (symmetry; apply Z.eqb_neq; lia).
  cbn [negb].
  destruct (Binary64Error.rate_rounding
              (Z.of_nat (length users) - Z.of_nat (size (marked strptime now mandatory es)))
              (Z.of_nat (length users)) Hpos) as (k & Hk & Hclose).
  exists k. split; [exact Hclose |]. rewrite Hk. apply Binary64Error.rn_error.
Qed.

(** C3, as the code has it: the completion rate never exceeds 100 and is
    0 when the users list is empty.  It is at least 0 whenever the
    untrained ids are no more than the users, which is the case when every
    enrollment belongs to one of the input users.  For a users list that
    is not empty the rate is 0 when the untrained ids are as many as the
    users, and only when the two counts differ by less than one part in
    19999 of the users. *)
Theorem completion_rate_bounds (self : KnowBe4ReportGenerator) (users : list user)
    (es : list enrollment) (mandatory : list string) (r : report) :
  analyse_training_data strptime now self users es mandatory = Ok r →
  (users = [] → Completion_Rate (report_metrics r) = 0%Q)
  ∧ (Completion_Rate (report_metrics r) <= 100)%Q
  ∧ (Total_Untrained_Users (report_metrics r) ≤ Total_Users (report_metrics r) →
     (0 <= Completion_Rate (report_metrics r))%Q)
  ∧ ((∀ e, e ∈ es → user_id e ∈ uid <$> users) →
     Total_Untrained_Users (report_metrics r) ≤ Total_Users (report_metrics r))
  ∧ (users ≠ [] →
     Total_Untrained_Users (report_metrics r) = Total_Users (report_metrics r) →
     Completion_Rate (report_metrics r) = 0%Q)
  ∧ (users ≠ [] → (Completion_Rate (report_metrics r) == 0)%Q →
     19999 * Z.abs (Total_Users (report_metrics r)
                    - Total_Untrained_Users (report_metrics r))
     < Total_Users (report_metrics r)).
Proof.
  intros Hr. apply analyse_training_data_Ok in Hr as [_ ->].
  cbn [report_metrics Total_Users Total_Untrained_Users Completion_Rate].
  assert (Hcases : users = [] ∨ 0 < Z.of_nat (length users))
    by (destruct users; [by left | right; simpl; lia]).
  split; [intros ->; reflexivity |]. split.
  { destruct Hcases as [-> | Hpos]; [discriminate |]. unfold completion_rate.
    replace (Z.of_nat (length users) =? 0) with false by (symmetry; apply Z.eqb_neq; lia).
    cbn [negb]. apply Binary64Error.percent_upper; lia. }
  split.
  { intros Hle. destruct Hcases as [-> | Hpos]; [discriminate |]. unfold completion_rate.
    replace (Z.of_nat (length users) =? 0) with false by (symmetry; apply Z.eqb_neq; lia).
    cbn [negb].
    destruct (Binary64Facts.percent_range
                (Z.of_nat (length users) - Z.of_nat (size (marked strptime now mandatory es)))
                (Z.of_nat (length users))) as [Ha Hb]; [lia | lia |].
    by apply Binary64Facts.round2_range. }
  split.
  { intros Hall. apply inj_le.
    transitivity (size (list_to_set (uid <$> users) : gset Z)).
    + apply subseteq_size. intros i Hi.
      apply elem_of_marked in Hi as (e & He & <- & _).
      apply elem_of_list_to_set. by apply Hall.
    + etransitivity; [apply size_list_to_set_le |]. by rewrite length_fmap. }
  split.
  { intros Hne Heq. rewrite Heq. unfold completion_rate. rewrite Z.sub_diag.
    destruct (Z.of_nat (length users) =? 0); reflexivity. }
  intros Hne Hzero. destruct Hcases as [-> | Hpos]; [done |].
  unfold completion_rate in Hzero.
  replace (Z.of_nat (length users) =? 0) with false in Hzero
    by (symmetry; apply Z.eqb_neq; lia).
  cbn [negb] in Hzero. by apply Binary64Error.percent_zero.
Qed.

(** C4, as the code has it: when the analysis returns, removing an
    enrollment whose user id is not among the users' ids leaves it
    returning, with the same Total Users and the same untrained-user rows
    up to their order. *)
Theorem unmatched_enrollment_effect (self : KnowBe4ReportGenerator) (users : list user)
    (mandatory : list string) (l1 l2 : list enrollment) (e : enrollment) (r : report) :
  user_id e ∉ uid <$> users →
  analyse_training_data strptime now self users (l1 ++ e :: l2) mandatory = Ok r →
  ∃ r', analyse_training_data strptime now self users (l1 ++ l2) mandatory = Ok r'
    ∧ report_untrained_users r ≡ₚ report_untrained_users r'
    ∧ Total_Users (report_metrics r) = Total_Users (report_metrics r').
Proof.
  intros Hid Hr. apply analyse_training_data_Ok in Hr as [Hall ->].
  destruct (analyse_training_data_returns self users (l1 ++ l2) mandatory) as [r' Hr'].
  { intros x Hx. apply Hall. apply elem_of_app in Hx as [Hx | Hx];
      apply elem_of_app; [by left | right; by right]. }
  exists r'. split; [assumption |].
  apply analyse_training_data_Ok in Hr' as [_ ->]. simpl.
  rewrite marked_insert. destruct (marks strptime now mandatory e).
  - split; [| reflexivity].
    apply untrained_rows_unmatched. by apply build_user_lookup_None.
  - split; reflexivity.
Qed.

End AnalysisFacts.


Lemma due_date_boundary_witness :
  ∃ t, analyse_enrollment strptime_iso Sample.clock ["Security101"%string]
         tracking_empty Sample.due_at_clock = Ok t
       ∧ (1 ∈ untrained_users t ↔ datetime_lt Sample.clock Sample.clock = true)
       ∧ (Sample.clock = Sample.clock → 1 ∉ untrained_users t)
       ∧ (datetime_lt Sample.clock Sample.clock = true → 1 ∉ untrained_users t).
Proof.
  apply (due_date_boundary strptime_iso Sample.clock ["Security101"%string]
           tracking_empty Sample.due_at_clock "2024-01-01T00:00:00Z").
  - apply list_elem_of_here.
  - reflexivity.
  - reflexivity.
  - discriminate.
  - reflexivity.
  - apply not_elem_of_empty.
Defined.

(** C5 as stated fails: a due date equal to the clock reading does not
    classify the user as untrained. *)
Lemma due_equal_to_clock_not_untrained :
  strptime_iso "2024-01-01T00:00:00Z" = Some Sample.clock
  ∧ analyse_enrollment strptime_iso Sample.clock ["Security101"%string]
      tracking_empty Sample.due_at_clock
    = Ok {| untrained_users := ∅;
            user_enrollments := {[1 := [Sample.due_at_clock]]} |}.
Proof. split; reflexivity. Qed.



Lemma metrics_definition_witness :
  Total_Users (report_metrics Sample.report_two_thirds)
  = Z.of_nat (length [Sample.user_1; Sample.user_1; Sample.user_2])
  ∧ (∃ t, analyse_enrollments strptime_iso Sample.clock ["Security101"%string]
            tracking_empty [Sample.failed_2000] = Ok t
          ∧ untrained_users t
            = marked strptime_iso Sample.clock ["Security101"%string] [Sample.failed_2000]
          ∧ Total_Untrained_Users (report_metrics Sample.report_two_thirds)
            = Z.of_nat (size (untrained_users t)))
  ∧ ([Sample.user_1; Sample.user_1; Sample.user_2] = [] →
     Completion_Rate (report_metrics Sample.report_two_thirds) = 0%Q)
  ∧ ([Sample.user_1; Sample.user_1; Sample.user_2] ≠ [] →
     rounded_to_2_places
       (exact_percentage (Total_Users (report_metrics Sample.report_two_thirds))
          (Total_Untrained_Users (report_metrics Sample.report_two_thirds)))
       (Completion_Rate (report_metrics Sample.report_two_thirds)))
  ∧ binary64_number (Completion_Rate (report_metrics Sample.report_two_thirds)).
Proof.
  apply (metrics_definition strptime_iso Sample.clock Sample.generator
           [Sample.user_1; Sample.user_1; Sample.user_2] [Sample.failed_2000]
           ["Security101"%string] Sample.report_two_thirds).
  vm_compute. reflexivity.
Defined.

(** The rate of that report is the binary64 number that Python prints as
    66.67. *)
Example rate_two_thirds :
  Binary64.agrees (Completion_Rate (report_metrics Sample.report_two_thirds))
    0x1.0aae147ae147bp+6%float = true
  ∧ Binary64.agrees (Completion_Rate (report_metrics Sample.report_one_third))
      0x1.0aa3d70a3d70ap+5%float = true.
Proof. split; vm_compute; reflexivity. Qed.

(* ===================================================================== *)
(** ** The paged retrieval *)
(* ===================================================================== *)

Section FetchFacts.

Context {A : Type}.
Variable self : KnowBe4ReportGenerator.
Variable server : request → reply A.
Variable endpoint : string.
Variable params : option loc.

Lemma contents_store (l : loc) (d : dict) (w : world) : contents l (store l d w) = d.
Proof. unfold contents, store. simpl. by rewrite lookup_insert_eq. Qed.

Lemma params_or_new_effects (w : world) :
  requests_sent (params_or_new params w).2 = requests_sent w
  ∧ log (params_or_new params w).2 = log w
  ∧ files (params_or_new params w).2 = files w.
Proof.
  unfold params_or_new, new_dict.
  destruct params as [l |]; [case_bool_decide |]; simpl; auto.
Qed.

(** The request of an iteration asks for the current page. *)
Lemma issue_asks (page : Z) (w : world) :
  asks (issue self endpoint params page w).1 page.
Proof.
  unfold issue, asks. destruct (params_or_new params w) as [l w1].
  cbn [fst query]. rewrite contents_store. split.
  - rewrite lookup_insert_ne by discriminate. by rewrite lookup_insert_eq.
  - by rewrite lookup_insert_eq.
Qed.

(** An iteration sends one request and leaves log and files alone. *)
Lemma issue_effects (page : Z) (w : world) :
  requests_sent (issue self endpoint params page w).2
    = requests_sent w ++ [(issue self endpoint params page w).1]
  ∧ log (issue self endpoint params page w).2 = log w
  ∧ files (issue self endpoint params page w).2 = files w.
Proof.
  unfold issue. pose proof (params_or_new_effects w) as (Hs & Hl & Hf).
  destruct (params_or_new params w) as [l w1]. simpl in *.
  by rewrite Hs, Hl, Hf.
Qed.

Lemma page_of_asks (r : request) (k : Z) : asks r k → page_of r = Some k.
Proof. intros [Hp _]. unfold page_of. by rewrite Hp. Qed.

(** A full page: the loop goes on with the next page. *)
Lemma paginate_full_page (fuel : nat) (all_results data : list A) (page : Z)
    (response : option (response A)) (w : world) :
  serves server page data → length data = 500%nat →
  ∃ r, paginate (S fuel) self server endpoint params all_results page response w =
       paginate fuel self server endpoint params (all_results ++ data) (page + 1)
         (Some r) (issue self endpoint params page w).2.
Proof.
  intros Hsrv Hlen. simpl.
  pose proof (issue_asks page w) as Hasks.
  destruct (issue self endpoint params page w) as [req w1]. simpl in *.
  destruct (Hsrv req Hasks) as (r & -> & -> & ->). exists r.
  destruct data as [| x data]; [discriminate |].
  rewrite Hlen. reflexivity.
Qed.

(** A short page, empty or not: the loop is left with the records so far
    and those of the page; the world has one more request and no more
    files. *)
Lemma paginate_short_page (fuel : nat) (all_results data : list A) (page : Z)
    (response : option (response A)) (w : world) :
  serves server page data → (length data < 500)%nat →
  ∃ w', paginate (S fuel) self server endpoint params all_results page response w =
          Some (w', Ok (all_results ++ data))
        ∧ requests_sent w' = requests_sent w ++ [(issue self endpoint params page w).1]
        ∧ files w' = files w.
Proof.
  intros Hsrv Hlen. simpl.
  pose proof (issue_asks page w) as Hasks.
  pose proof (issue_effects page w) as (Hs & _ & Hf).
  destruct (issue self endpoint params page w) as [req w1]. simpl in *.
  destruct (Hsrv req Hasks) as (r & -> & -> & ->).
  destruct data as [| x data].
  - eexists. split; [unfold finish; by rewrite app_nil_r |]. simpl. auto.
  - assert (Hlt : (Z.of_nat (length (x :: data)) <? per_page) = true)
      by (apply Z.ltb_lt; unfold per_page; lia).
    rewrite Hlt. eexists. split; [reflexivity |]. simpl. auto.
Qed.

(** Full pages followed by a short one: the loop returns their records in
    order after one request per page. *)
Lemma paginate_until_short (fulls : list (list A)) (last : list A) :
  ∀ (fuel : nat) (all_results : list A) (page : Z) (response : option (response A))
    (w : world),
  (∀ k p, fulls !! k = Some p → length p = 500%nat ∧ serves server (page + Z.of_nat k) p) →
  (length last < 500)%nat →
  serves server (page + Z.of_nat (length fulls)) last →
  ∃ w' rs,
    paginate (S (length fulls) + fuel) self server endpoint params all_results page
      response w = Some (w', Ok (all_results ++ concat fulls ++ last))
    ∧ requests_sent w' = requests_sent w ++ rs
    ∧ page_of <$> rs = (λ k, Some (page + Z.of_nat k)) <$> seq 0 (S (length fulls))
    ∧ files w' = files w.
Proof.
  induction fulls as [| p fulls IH]; intros fuel all_results page response w Hfull Hlen Hlast.
  - simpl in Hlast. rewrite Z.add_0_r in Hlast.
    destruct (paginate_short_page fuel all_results last page response w Hlast Hlen)
      as (w' & Hrun & Hs & Hf).
    exists w', [(issue self endpoint params page w).1].
    split; [exact Hrun |]. split; [exact Hs |]. split; [| exact Hf].
    simpl. rewrite Z.add_0_r. f_equal. apply page_of_asks, issue_asks.
  - destruct (Hfull 0%nat p eq_refl) as [Hp Hsrv]. rewrite Z.add_0_r in Hsrv.
    destruct (paginate_full_page (S (length fulls) + fuel) all_results p page response w
                Hsrv Hp) as [r Hstep].
    pose proof (issue_effects page w) as (Hs1 & _ & Hf1).
    destruct (IH fuel (all_results ++ p) (page + 1) (Some r)
                (issue self endpoint params page w).2) as (w' & rs & Hrun & Hs & Hpages & Hf).
    + intros k q Hk. destruct (Hfull (S k) q Hk) as [Hq Hsq]. split; [exact Hq |].
      replace (page + 1 + Z.of_nat k) with (page + Z.of_nat (S k)) by lia. exact Hsq.
    + exact Hlen.
    + replace (page + 1 + Z.of_nat (length fulls))
        with (page + Z.of_nat (length (p :: fulls))) by (simpl; lia). exact Hlast.
    + exists w', ((issue self endpoint params page w).1 :: rs).
      split; [| split; [| split]].
      * change (S (length (p :: fulls)) + fuel)%nat with (S (S (length fulls) + fuel)).
        rewrite Hstep, Hrun. simpl. by rewrite <- !app_assoc.
      * rewrite Hs, Hs1. by rewrite <- app_assoc.
      * rewrite fmap_cons, Hpages.
        rewrite (page_of_asks _ _ (issue_asks page w)).
        change (seq 0 (S (length (p :: fulls)))) with (0%nat :: seq 1 (S (length fulls))).
        rewrite fmap_cons, Z.add_0_r. f_equal.
        rewrite <- fmap_S_seq, <- list_fmap_compose. apply list_fmap_ext.
        intros _ k _. simpl. f_equal. lia.
      * by rewrite Hf, Hf1.
Qed.


(** C6: the loop stops at the first short or empty page.  Full pages
    followed by a short one give their records in order after one request
    per page; pages of 500, 500 and 137 records give 1137 records after
    three requests; a first page of fewer than 500 records gives that
    page after one request. *)
Theorem pagination_stops_at_short_page (w : world) :
  (∀ (fulls : list (list A)) (last : list A) (fuel : nat),
     (∀ k p, fulls !! k = Some p →
             length p = 500%nat ∧ serves server (1 + Z.of_nat k) p) →
     (length last < 500)%nat →
     serves server (1 + Z.of_nat (length fulls)) last →
     ∃ w' rs,
       _paginated_get (S (length fulls) + fuel) self server endpoint params w
         = Some (w', Ok (concat fulls ++ last))
       ∧ requests_sent w' = requests_sent w ++ rs
       ∧ page_of <$> rs = (λ k, Some (1 + Z.of_nat k)) <$> seq 0 (S (length fulls)))
  ∧ (∀ (p1 p2 p3 : list A) (fuel : nat),
       length p1 = 500%nat → length p2 = 500%nat → length p3 = 137%nat →
       serves server 1 p1 → serves server 2 p2 → serves server 3 p3 →
       ∃ w' rs,
         _paginated_get (3 + fuel) self server endpoint params w
           = Some (w', Ok (p1 ++ p2 ++ p3))
         ∧ length (p1 ++ p2 ++ p3) = 1137%nat
         ∧ requests_sent w' = requests_sent w ++ rs
         ∧ page_of <$> rs = [Some 1; Some 2; Some 3])
  ∧ (∀ (p1 : list A) (fuel : nat),
       (length p1 < 500)%nat → serves server 1 p1 →
       ∃ w' r1,
         _paginated_get (1 + fuel) self server endpoint params w = Some (w', Ok p1)
         ∧ requests_sent w' = requests_sent w ++ [r1]
         ∧ page_of r1 = Some 1).
Proof.
  assert (Hgen : ∀ (fulls : list (list A)) (last : list A) (fuel : nat),
     (∀ k p, fulls !! k = Some p →
             length p = 500%nat ∧ serves server (1 + Z.of_nat k) p) →
     (length last < 500)%nat →
     serves server (1 + Z.of_nat (length fulls)) last →
     ∃ w' rs,
       _paginated_get (S (length fulls) + fuel) self server endpoint params w
         = Some (w', Ok (concat fulls ++ last))
       ∧ requests_sent w' = requests_sent w ++ rs
       ∧ page_of <$> rs = (λ k, Some (1 + Z.of_nat k)) <$> seq 0 (S (length fulls))).
  { intros fulls last fuel Hfull Hlen Hlast.
    destruct (paginate_until_short fulls last fuel [] 1 None w Hfull Hlen Hlast)
      as (w' & rs & Hrun & Hs & Hp & _).
    exists w', rs. auto. }
  split; [exact Hgen |]. split.
  - intros p1 p2 p3 fuel H1 H2 H3 S1 S2 S3.
    destruct (Hgen [p1; p2] p3 fuel) as (w' & rs & Hrun & Hs & Hp).
    + intros [| [| k]] p Hk; simplify_eq/=; auto.
    + lia.
    + exact S3.
    + exists w', rs. simpl in Hrun. rewrite app_nil_r, <- app_assoc in Hrun.
      split; [exact Hrun |]. split; [rewrite !length_app; lia |]. auto.
  - intros p1 fuel H1 S1.
    destruct (Hgen [] p1 fuel) as (w' & rs & Hrun & Hs & Hp).
    + intros k p Hk. discriminate.
    + exact H1.
    + exact S1.
    + destruct rs as [| r1 [| r2 rs]]; try discriminate.
      exists w', r1. simpl in Hp. injection Hp as Hp. auto.
Qed.

(** Once [response] is bound the loop cannot raise. *)
Lemma paginate_bound_never_raises (fuel : nat) :
  ∀ (all_results : list A) (page : Z) (r : response A) (w w' : world) (e : exn),
  paginate fuel self server endpoint params all_results page (Some r) w
    ≠ Some (w', Raise e).
Proof.
  induction fuel as [| fuel IH]; intros all_results page r w w' e; simpl; [discriminate |].
  destruct (issue self endpoint params page w) as [req w1].
  destruct (server req) as [| r1]; [discriminate |].
  destruct (raises_for_status r1); [discriminate |].
  destruct (json r1) as [[| x data] |]; try discriminate.
  destruct (Z.of_nat (length (x :: data)) <? per_page); [discriminate | apply IH].
Qed.

(** [_paginated_get] raises only in one way: the first call of
    [requests.get] raised, so that the handler found no [response]. *)
Lemma paginated_get_raises_inv (fuel : nat) (w w' : world) (e : exn) :
  _paginated_get fuel self server endpoint params w = Some (w', Raise e) →
  e = UnboundLocalError ∧ server (issue self endpoint params 1 w).1 = NoResponse.
Proof.
  unfold _paginated_get. destruct fuel as [| fuel]; simpl; [discriminate |].
  destruct (issue self endpoint params 1 w) as [req w1]. simpl.
  destruct (server req) as [| r1]; [by intros [= _ <-] |].
  destruct (raises_for_status r1); [discriminate |].
  destruct (json r1) as [[| x data] |]; try discriminate.
  destruct (Z.of_nat (length (x :: data)) <? per_page); [discriminate |].
  intros H. by apply paginate_bound_never_raises in H.
Qed.

(** A failure after the first page: the records of the earlier pages are
    returned. *)
Lemma paginate_later_failure (fuel : nat) (all_results : list A) (page : Z)
    (r : response A) (w : world) :
  (server (issue self endpoint params page w).1 = NoResponse
   ∨ ∃ r', server (issue self endpoint params page w).1 = Response r'
           ∧ raises_for_status r' = true) →
  ∃ w', paginate (S fuel) self server endpoint params all_results page (Some r) w
        = Some (w', Ok all_results).
Proof.
  simpl. destruct (issue self endpoint params page w) as [req w1]. simpl.
  intros [-> | (r' & -> & ->)]; unfold on_request_exception, finish; eauto.
Qed.

(** The loop writes no file. *)
Lemma paginate_files (fuel : nat) :
  ∀ (all_results : list A) (page : Z) (response : option (response A))
    (w w' : world) (res : result (list A)),
  paginate fuel self server endpoint params all_results page response w = Some (w', res) →
  files w' = files w.
Proof.
  induction fuel as [| fuel IH]; intros all_results page response w w' res; simpl;
    [discriminate |].
  pose proof (issue_effects page w) as (_ & _ & Hf).
  destruct (issue self endpoint params page w) as [req w1]. simpl in Hf.
  unfold on_request_exception, finish.
  destruct (server req) as [| r1].
  { destruct response; intros [= <- _]; simpl; assumption. }
  destruct (raises_for_status r1); [intros [= <- _]; simpl; assumption |].
  destruct (json r1) as [[| x data] |]; try (intros [= <- _]; simpl; assumption).
  destruct (Z.of_nat (length (x :: data)) <? per_page);
    [intros [= <- _]; simpl; assumption |].
  intros H. apply IH in H. congruence.
Qed.

End FetchFacts.

(** C2, at the failing input: when the first call of [requests.get] raises,
    [_paginated_get] raises [UnboundLocalError] instead of returning the
    empty list. *)
Theorem first_request_failure_raises (A : Type) (fuel : nat)
    (self : KnowBe4ReportGenerator) (endpoint : string) (params : option loc)
    (w : world) :
  snd <$> _paginated_get (A := A) (S fuel) self (λ _, NoResponse) endpoint params w
    = Some (Raise UnboundLocalError).
Proof.
  unfold _paginated_get. simpl.
  destruct (issue self endpoint params 1 w) as [req w1]. reflexivity.
Qed.

Lemma dataset_server_serves {A} (dataset : list A) (k : Z) :
  serves (dataset_server dataset) k
    (take 500 (drop (Z.to_nat ((k - 1) * 500)) dataset)).
Proof.
  intros req [Hp Hn]. unfold dataset_server. rewrite Hp, Hn.
  eexists. split; [reflexivity |]. split; reflexivity.
Qed.

Lemma pagination_stops_at_short_page_witness :
  ∃ w' rs,
    _paginated_get (3 + 0) Sample.generator (dataset_server Sample.roster) "/users"
      None world_empty
      = Some (w', Ok (take 500 Sample.roster
                      ++ take 500 (drop 500 Sample.roster)
                      ++ take 500 (drop 1000 Sample.roster)))
    ∧ length (take 500 Sample.roster ++ take 500 (drop 500 Sample.roster)
              ++ take 500 (drop 1000 Sample.roster)) = 1137%nat
    ∧ requests_sent w' = requests_sent world_empty ++ rs
    ∧ page_of <$> rs = [Some 1; Some 2; Some 3].
Proof.
  destruct (pagination_stops_at_short_page Sample.generator
              (dataset_server Sample.roster) "/users" None world_empty)
    as (_ & Hthree & _).
  apply Hthree.
  - vm_compute. reflexivity.
  - vm_compute. reflexivity.
  - vm_compute. reflexivity.
  - apply (dataset_server_serves Sample.roster 1).
  - apply (dataset_server_serves Sample.roster 2).
  - apply (dataset_server_serves Sample.roster 3).
Defined.

(** C10, at the failing input: a caller's dictionary that is not empty is
    the very object the loop updates, and it has the keys [page] and
    [per_page] after the call. *)
Theorem caller_params_mutated :
  contents 1 Sample.caller_world = {["status"%string := VStr "active"]}
  ∧ ∃ w', _paginated_get 1 Sample.generator (dataset_server [Sample.user_1]) "/users"
            (Some 1%positive) Sample.caller_world = Some (w', Ok [Sample.user_1])
          ∧ contents 1 w' =
              <["per_page"%string := VInt 500]>
                (<["page"%string := VInt 1]> {["status"%string := VStr "active"]}).
Proof.
  split; [reflexivity |]. eexists. split; [reflexivity |]. reflexivity.
Qed.

(* ===================================================================== *)
(** ** The report run *)
(* ===================================================================== *)

Section ReportFacts.

Variable self : KnowBe4ReportGenerator.

Lemma new_dict_files (d : dict) (w : world) : files (new_dict d w).2 = files w.
Proof. reflexivity. Qed.

Lemma get_training_enrollments_files (fuel : nat) (server : request → reply enrollment)
    (campaign_id : option Z) (w w' : world) (res : result (list enrollment)) :
  get_training_enrollments fuel self server campaign_id w = Some (w', res) →
  files w' = files w.
Proof.
  unfold get_training_enrollments, _paginated_get.
  destruct (new_dict _ w) as [l w1] eqn:Hn. intros H.
  apply paginate_files in H. rewrite H.
  change w1 with (l, w1).2. rewrite <- Hn. apply new_dict_files.
Qed.

Lemma fetch_enrollments_files (fuel : nat) (server : request → reply enrollment)
    (relevant : list campaign) :
  ∀ (acc : list enrollment) (w w' : world) (res : result (list enrollment)),
  fetch_enrollments fuel self server relevant acc w = Some (w', res) →
  files w' = files w.
Proof.
  induction relevant as [| c relevant IH]; intros acc w w' res; simpl.
  - by intros [= <- _].
  - unfold mbind, io_bind.
    destruct (get_training_enrollments fuel self server (Some (campaign_id c)) w)
      as [[w1 [es | x]] |] eqn:Hget; [| | discriminate].
    + intros H. apply IH in H. apply get_training_enrollments_files in Hget. congruence.
    + intros [= <- _]. by apply get_training_enrollments_files in Hget.
Qed.

(** Assembling the inputs writes no file. *)
Lemma fetch_data_files (fuel : nat) (srv : api) (w w' : world)
    (res : result (list user * list enrollment)) :
  fetch_data fuel self srv w = Some (w', res) → files w' = files w.
Proof.
  unfold fetch_data, mbind, io_bind, get_users, get_training_campaigns, _paginated_get.
  destruct (new_dict _ w) as [l w0] eqn:Hn.
  assert (H0 : files w0 = files w)
    by (change w0 with (l, w0).2; rewrite <- Hn; apply new_dict_files).
  destruct (paginate fuel self (users_api srv) "/users" (Some l) [] 1 None w0)
    as [[w1 [users | x]] |] eqn:H1; [| | discriminate].
  2: { intros [= <- _]. apply paginate_files in H1. congruence. }
  apply paginate_files in H1.
  destruct (paginate fuel self (campaigns_api srv) "/training/campaigns" None [] 1 None w1)
    as [[w2 [cs | x]] |] eqn:H2; [| | discriminate].
  2: { intros [= <- _]. apply paginate_files in H2. congruence. }
  apply paginate_files in H2. unfold io_log. simpl.
  destruct (fetch_enrollments fuel self (enrollments_api srv) _ [] _)
    as [[w3 [es | x]] |] eqn:H3; [| | discriminate].
  - intros [= <- _]. apply fetch_enrollments_files in H3. simpl in H3. congruence.
  - intros [= <- _]. apply fetch_enrollments_files in H3. simpl in H3. congruence.
Qed.

(** C8, as the code has it: an enrollment of a mandatory campaign whose
    status is neither Completed nor Passed and whose due-date string is not
    empty and does not parse makes [analyse_training_data] raise a
    [ValueError].  [generate_report], having fetched such an enrollment,
    catches the exception: it returns normally, its log is the log of the
    fetches with one error record for the exception after it, no file is
    written, and nothing else changes. *)
Theorem malformed_due_date_propagates (strptime : string → option datetime)
    (now : datetime) (users : list user) (mandatory : list string)
    (es : list enrollment) (e : enrollment) (s : string) :
  e ∈ es → campaign_name e ∈ mandatory →
  terminal_success (status e) = false →
  due_date e = Some s → s ≠ EmptyString → strptime s = None →
  analyse_training_data strptime now self users es mandatory = Raise ValueError
  ∧ ∀ (fuel : nat) (timestamp : datetime) (srv : api) (output_dir : string)
      (w w1 : world),
      mandatory = mandatory_campaigns self →
      fetch_data fuel self srv w = Some (w1, Ok (users, es)) →
      ∃ w', generate_report fuel strptime now timestamp self srv output_dir w
              = Some (w', Ok tt)
        ∧ log w' = log w1 ++ [ErrorGenerateReport ValueError]
        ∧ files w' = files w
        ∧ requests_sent w' = requests_sent w1
        ∧ heap w' = heap w1.
Proof.
  intros He Hc Hst Hdue Hne Hparse.
  pose proof (malformed_enrollment_raises strptime now self users mandatory es e s
                He Hc Hst Hdue Hne Hparse) as Hraise.
  split; [exact Hraise |].
  intros fuel timestamp srv output_dir w w1 -> Hfetch.
  exists (logger (ErrorGenerateReport ValueError) w1). split.
  - unfold generate_report, try_except, mbind, io_bind. rewrite Hfetch.
    unfold io_result. rewrite Hraise. reflexivity.
  - cbn [logger log files requests_sent heap].
    split; [reflexivity |]. split; [by apply fetch_data_files in Hfetch |].
    split; reflexivity.
Qed.

End ReportFacts.

Lemma malformed_due_date_propagates_witness :
  analyse_training_data strptime_iso Sample.clock Sample.generator [Sample.user_1]
    [Sample.failed_garbled] ["Security101"%string] = Raise ValueError
  ∧ ∃ w', generate_report 1 strptime_iso Sample.clock Sample.clock Sample.generator
            Sample.upstream "." world_empty = Some (w', Ok tt)
      ∧ log w' = log Sample.after_fetch ++ [ErrorGenerateReport ValueError]
      ∧ files w' = files world_empty
      ∧ requests_sent w' = requests_sent Sample.after_fetch
      ∧ heap w' = heap Sample.after_fetch.
Proof.
  destruct (malformed_due_date_propagates Sample.generator strptime_iso Sample.clock
              [Sample.user_1] ["Security101"%string] [Sample.failed_garbled]
              Sample.failed_garbled "01/01/2000") as [Hraise Hreport].
  - apply list_elem_of_here.
  - apply list_elem_of_here.
  - reflexivity.
  - reflexivity.
  - discriminate.
  - reflexivity.
  - split; [exact Hraise |].
    apply Hreport; [reflexivity |]. vm_compute. reflexivity.
Defined.

(** The log of that run: the four lines of the fetches, then the error. *)
Example malformed_run_log :
  ∃ w', generate_report 1 strptime_iso Sample.clock Sample.clock Sample.generator
          Sample.upstream "." world_empty = Some (w', Ok tt)
    ∧ log w' = [InfoFetched 1 "/users"; InfoFetched 1 "/training/campaigns";
                InfoRelevantCampaigns 1; InfoFetched 1 "/training/enrollments";
                ErrorGenerateReport ValueError]
    ∧ files w' = [].
Proof. eexists. split; [vm_compute; reflexivity |]. split; reflexivity. Qed.

(** C8 as stated fails: the empty string does not parse, yet an enrollment
    of a mandatory campaign with status Failed and the empty string as due
    date does not make the analysis raise; the empty string counts as no
    due date, and the user is reported untrained. *)
Lemma empty_due_date_does_not_raise :
  campaign_name Sample.failed_empty_due ∈ ["Security101"%string]
  ∧ terminal_success (status Sample.failed_empty_due) = false
  ∧ due_date Sample.failed_empty_due = Some EmptyString
  ∧ strptime_iso EmptyString = None
  ∧ analyse_training_data strptime_iso Sample.clock Sample.generator [Sample.user_1]
      [Sample.failed_empty_due] ["Security101"%string] = Ok Sample.report_untrained
  ∧ analyse_training_data strptime_iso Sample.clock Sample.generator [Sample.user_1]
      [Sample.failed_empty_due] ["Security101"%string] ≠ Raise ValueError.
Proof.
  split; [apply list_elem_of_here |]. repeat split; try reflexivity. discriminate.
Qed.

(* ===================================================================== *)
(** ** The metrics on sample inputs *)
(* ===================================================================== *)

Lemma completion_rate_bounds_witness :
  ([Sample.user_1; Sample.user_2; Sample.user_3] = [] →
   Completion_Rate (report_metrics Sample.report_one_third) = 0%Q)
  ∧ (Completion_Rate (report_metrics Sample.report_one_third) <= 100)%Q
  ∧ (Total_Untrained_Users (report_metrics Sample.report_one_third)
     ≤ Total_Users (report_metrics Sample.report_one_third) →
     (0 <= Completion_Rate (report_metrics Sample.report_one_third))%Q)
  ∧ ((∀ e, e ∈ [Sample.failed_2000; Sample.failed_3] →
           user_id e ∈ uid <$> [Sample.user_1; Sample.user_2; Sample.user_3]) →
     Total_Untrained_Users (report_metrics Sample.report_one_third)
     ≤ Total_Users (report_metrics Sample.report_one_third))
  ∧ ([Sample.user_1; Sample.user_2; Sample.user_3] ≠ [] →
     Total_Untrained_Users (report_metrics Sample.report_one_third)
     = Total_Users (report_metrics Sample.report_one_third) →
     Completion_Rate (report_metrics Sample.report_one_third) = 0%Q)
  ∧ ([Sample.user_1; Sample.user_2; Sample.user_3] ≠ [] →
     (Completion_Rate (report_metrics Sample.report_one_third) == 0)%Q →
     19999 * Z.abs (Total_Users (report_metrics Sample.report_one_third)
                    - Total_Untrained_Users (report_metrics Sample.report_one_third))
     < Total_Users (report_metrics Sample.report_one_third)).
Proof.
  apply (completion_rate_bounds strptime_iso Sample.clock Sample.generator
           [Sample.user_1; Sample.user_2; Sample.user_3]
           [Sample.failed_2000; Sample.failed_3] ["Security101"%string]
           Sample.report_one_third).
  vm_compute. reflexivity.
Defined.

(** C3 as stated fails: with two untrained ids that belong to no input
    user the rate of one user is -100, and with one user who is untrained
    the rate is 0 although the users list is not empty. *)
Lemma completion_rate_outside_claim :
  (∃ r, analyse_training_data strptime_iso Sample.clock Sample.generator
          [Sample.user_1] [Sample.stranger_98; Sample.stranger_99]
          ["Security101"%string] = Ok r
        ∧ Total_Users (report_metrics r) = 1
        ∧ Total_Untrained_Users (report_metrics r) = 2
        ∧ (Completion_Rate (report_metrics r) == -100)%Q
        ∧ (Completion_Rate (report_metrics r) < 0)%Q)
  ∧ (∃ r, analyse_training_data strptime_iso Sample.clock Sample.generator
            [Sample.user_1] [Sample.failed_2000] ["Security101"%string] = Ok r
          ∧ Total_Users (report_metrics r) = 1
          ∧ (Completion_Rate (report_metrics r) == 0)%Q).
Proof.
  split; eexists; (split; [vm_compute; reflexivity |]); repeat split.
Qed.

Lemma unmatched_enrollment_effect_witness :
  ∃ r', analyse_training_data strptime_iso Sample.clock Sample.generator
          [Sample.user_1] ([Sample.failed_2000] ++ []) ["Security101"%string] = Ok r'
    ∧ [[("Name"%string, VStr "A B"); ("Email"%string, VStr "a@x.com");
        ("Manager"%string, VStr "N/A")]] ≡ₚ report_untrained_users r'
    ∧ 1 = Total_Users (report_metrics r').
Proof.
  apply (unmatched_enrollment_effect strptime_iso Sample.clock Sample.generator
           [Sample.user_1] ["Security101"%string] [Sample.failed_2000] []
           Sample.stranger_98
           {| report_metrics :=
                {| Total_Users := 1; Total_Untrained_Users := 2;
                   Completion_Rate := Binary64.round2 (completion_rate 1 2) |};
              report_untrained_users :=
                [[("Name"%string, VStr "A B"); ("Email"%string, VStr "a@x.com");
                  ("Manager"%string, VStr "N/A")]] |}).
  - vm_compute. intros H. inversion H as [| ? ? ? H']. inversion H'.
  - vm_compute. reflexivity.
Defined.

(** C4 as stated fails: an enrollment of a user id that no input user has
    changes the metrics of the report, and one with a due date that does
    not parse makes the analysis raise where it returns without it. *)
Lemma unmatched_enrollment_changes_report :
  user_id Sample.stranger_98 ∉ uid <$> [Sample.user_1]
  ∧ (∃ r r',
      analyse_training_data strptime_iso Sample.clock Sample.generator
        [Sample.user_1] ([] ++ Sample.stranger_98 :: []) ["Security101"%string] = Ok r
      ∧ analyse_training_data strptime_iso Sample.clock Sample.generator
          [Sample.user_1] ([] ++ []) ["Security101"%string] = Ok r'
      ∧ Total_Untrained_Users (report_metrics r) = 1
      ∧ Total_Untrained_Users (report_metrics r') = 0
      ∧ (Completion_Rate (report_metrics r) == 0)%Q
      ∧ (Completion_Rate (report_metrics r') == 100)%Q
      ∧ r ≠ r')
  ∧ analyse_training_data strptime_iso Sample.clock Sample.generator
      [Sample.user_1] ([] ++ Sample.stranger_garbled :: []) ["Security101"%string]
    = Raise ValueError.
Proof.
  split; [| split].
  - intros H. apply list_elem_of_fmap in H as (u & Hu & Hin).
    apply list_elem_of_singleton in Hin as ->. discriminate.
  - do 2 eexists. split; [vm_compute; reflexivity |].
    split; [vm_compute; reflexivity |]. repeat split. discriminate.
  - reflexivity.
Qed.

(** The two scenarios of the specification: one user whose only enrollment
    failed long ago, and the same with status Passed. *)
Example scenario_failed :
  analyse_training_data strptime_iso Sample.clock Sample.generator
    [Sample.user_1] [Sample.failed_2000] ["Security101"%string]
  = Ok {| report_metrics :=
            {| Total_Users := 1; Total_Untrained_Users := 1; Completion_Rate := 0 |};
          report_untrained_users :=
            [[("Name"%string, VStr "A B"); ("Email"%string, VStr "a@x.com");
              ("Manager"%string, VStr "N/A")]] |}.
Proof. vm_compute. reflexivity. Qed.

Example scenario_passed :
  ∃ r, analyse_training_data strptime_iso Sample.clock Sample.generator
         [Sample.user_1] [Sample.passed_2000] ["Security101"%string] = Ok r
       ∧ Total_Untrained_Users (report_metrics r) = 0
       ∧ (Completion_Rate (report_metrics r) == 100)%Q
       ∧ report_untrained_users r = [].
Proof. eexists. split; [vm_compute; reflexivity |]. repeat split. Qed.

(** The boundary of the due date on sample clocks: a due date one second
    before the clock marks the user, one a microsecond after it does not. *)
Example due_one_second_before :
  untrained_users
    <$> analyse_enrollment strptime_iso Sample.clock ["Security101"%string]
          tracking_empty Sample.due_before_clock
  = Ok {[1]}.
Proof. vm_compute. reflexivity. Qed.

Example due_one_microsecond_after :
  untrained_users
    <$> analyse_enrollment strptime_iso Sample.clock_before ["Security101"%string]
          tracking_empty Sample.due_at_clock
  = Ok ∅.
Proof. vm_compute. reflexivity. Qed.

(* ===================================================================== *)
(** * Further properties *)
(* ===================================================================== *)

(* ===================================================================== *)
(** ** Which enrollments decide the outcome of the analysis *)
(* ===================================================================== *)

Section AnalysisMore.

Variable strptime : string → option datetime.
Variable now : datetime.

(** The analysis raises when an enrollment is malformed, and otherwise
    returns the report of the ids that are marked. *)
Lemma analyse_training_data_cases (self : KnowBe4ReportGenerator) (users : list user)
    (es : list enrollment) (mandatory : list string) :
  ((∃ e, e ∈ es ∧ malformed strptime mandatory e = true)
   ∧ analyse_training_data strptime now self users es mandatory = Raise ValueError)
  ∨ ((∀ e, e ∈ es → malformed strptime mandatory e = false)
     ∧ analyse_training_data strptime now self users es mandatory =
       Ok {| report_metrics :=
               {| Total_Users := Z.of_nat (length users);
                  Total_Untrained_Users :=
                    Z.of_nat (size (marked strptime now mandatory es));
                  Completion_Rate :=
                    Binary64.round2
                      (completion_rate (Z.of_nat (length users))
                         (Z.of_nat (size (marked strptime now mandatory es)))) |};
             report_untrained_users :=
               untrained_rows self (build_user_lookup users)
                 (marked strptime now mandatory es) |}).
Proof.
  destruct (decide (Exists (λ e, malformed strptime mandatory e = true) es)) as [Hex | Hno].
  - left. apply Exists_exists in Hex as (e & He & Hbad). split; [eauto |].
    unfold analyse_training_data.
    by rewrite (analyse_enrollments_raises strptime now mandatory tracking_empty es e He Hbad).
  - right.
    assert (Hall : ∀ e, e ∈ es → malformed strptime mandatory e = false).
    { intros e He. destruct (malformed strptime mandatory e) eqn:Hbad; [| reflexivity].
      exfalso. apply Hno, Exists_exists. eauto. }
    split; [exact Hall |].
    destruct (analyse_training_data_returns strptime now self users es mandatory Hall)
      as [r Hr].
    rewrite Hr. f_equal. by apply analyse_training_data_Ok in Hr as [_ ->].
Qed.

Lemma malformed_iff (mandatory : list string) (e : enrollment) :
  malformed strptime mandatory e = true ↔
  campaign_name e ∈ mandatory ∧ terminal_success (status e) = false
  ∧ ∃ s, due_date e = Some s ∧ s ≠ EmptyString ∧ strptime s = None.
Proof.
  unfold malformed. rewrite !andb_true_iff, bool_decide_eq_true, negb_true_iff.
  split.
  - intros [[Hc Hs] Hd]. split; [exact Hc |]. split; [exact Hs |].
    destruct (truthy (due_date e)) as [s |] eqn:Ht; [| discriminate].
    apply truthy_Some in Ht as [Hdue Hne]. apply bool_decide_eq_true in Hd. eauto.
  - intros (Hc & Hs & s & Hdue & Hne & Hp). split; [by split |].
    rewrite (proj2 (truthy_Some _ _) (conj Hdue Hne)). by apply bool_decide_eq_true.
Qed.

(** X1: the analysis raises exactly when some enrollment of a mandatory
    campaign, with a status other than Completed and Passed, carries a
    due-date string that is not empty and does not parse; the exception is
    then a [ValueError], and in every other case a report is returned. *)
Theorem analysis_raises_iff (self : KnowBe4ReportGenerator) (users : list user)
    (es : list enrollment) (mandatory : list string) :
  (analyse_training_data strptime now self users es mandatory = Raise ValueError ↔
     ∃ e, e ∈ es ∧ campaign_name e ∈ mandatory
          ∧ terminal_success (status e) = false
          ∧ ∃ s, due_date e = Some s ∧ s ≠ EmptyString ∧ strptime s = None)
  ∧ (∀ x, analyse_training_data strptime now self users es mandatory = Raise x →
          x = ValueError)
  ∧ ((∀ e, e ∈ es → malformed strptime mandatory e = false) →
     ∃ r, analyse_training_data strptime now self users es mandatory = Ok r).
Proof.
  destruct (analyse_training_data_cases self users es mandatory)
    as [[(e & He & Hbad) Hr] | [Hall Hr]]; rewrite Hr.
  - split; [| split].
    + split; [| reflexivity]. intros _. exists e. split; [exact He |].
      by apply malformed_iff.
    + by intros x [= <-].
    + intros Hall. rewrite (Hall e He) in Hbad. discriminate.
  - split; [| split].
    + split; [discriminate |]. intros (e & He & Hbad).
      apply malformed_iff in Hbad. rewrite (Hall e He) in Hbad. discriminate.
    + discriminate.
    + eauto.
Qed.

Lemma irrelevant_not_marked (mandatory : list string) (e : enrollment) :
  campaign_name e ∉ mandatory ∨ terminal_success (status e) = true →
  marks strptime now mandatory e = false ∧ malformed strptime mandatory e = false.
Proof.
  unfold marks, malformed, untrained_rule. intros [Hc | Hs].
  - by rewrite bool_decide_eq_false_2.
  - rewrite Hs. simpl. by rewrite !andb_false_r.
Qed.

(** X2: an enrollment of a campaign that is not mandatory, or with status
    Completed or Passed, has no effect on the outcome of the analysis,
    whatever its due date: with it and without it the analysis returns the
    same report or raises the same exception. *)
Theorem irrelevant_enrollment_ignored (self : KnowBe4ReportGenerator)
    (users : list user) (mandatory : list string) (l1 l2 : list enrollment)
    (e : enrollment) :
  campaign_name e ∉ mandatory ∨ terminal_success (status e) = true →
  analyse_training_data strptime now self users (l1 ++ e :: l2) mandatory =
  analyse_training_data strptime now self users (l1 ++ l2) mandatory.
Proof.
  intros Hirr. apply irrelevant_not_marked in Hirr as [Hm Hb].
  assert (Hsub : ∀ x, x ∈ l1 ++ l2 → x ∈ l1 ++ e :: l2).
  { intros x Hx. apply elem_of_app in Hx as [Hx | Hx]; apply elem_of_app;
      [by left | right; by right]. }
  destruct (analyse_training_data_cases self users (l1 ++ e :: l2) mandatory)
    as [[(x & Hx & Hbad) Hr] | [Hall Hr]];
    destruct (analyse_training_data_cases self users (l1 ++ l2) mandatory)
      as [[(y & Hy & Hbad') Hr'] | [Hall' Hr']]; rewrite Hr, Hr'.
  - reflexivity.
  - exfalso. apply elem_of_app in Hx as [Hx | Hx].
    + rewrite Hall' in Hbad; [discriminate | apply elem_of_app; by left].
    + apply elem_of_cons in Hx as [-> | Hx]; [congruence |].
      rewrite Hall' in Hbad; [discriminate | apply elem_of_app; by right].
  - exfalso. rewrite (Hall y (Hsub y Hy)) in Hbad'. discriminate.
  - rewrite marked_insert, Hm. reflexivity.
Qed.

Lemma marked_same_elements (mandatory : list string) (es es' : list enrollment) :
  (∀ e, e ∈ es ↔ e ∈ es') →
  marked strptime now mandatory es = marked strptime now mandatory es'.
Proof.
  intros Hsame. apply set_eq. intros i. unfold marked.
  rewrite !elem_of_marked. split; intros (e & He & Hrest); exists e;
    (split; [by apply Hsame | exact Hrest]).
Qed.

(** X3: the outcome of the analysis depends on which enrollments are in
    the list, not on their order or on repetitions: two lists with the same
    elements both raise, or both return reports with the same metrics and
    the same rows up to their order. *)
Theorem analysis_order_irrelevant (self : KnowBe4ReportGenerator) (users : list user)
    (mandatory : list string) (es es' : list enrollment) :
  (∀ e, e ∈ es ↔ e ∈ es') →
  match analyse_training_data strptime now self users es mandatory,
        analyse_training_data strptime now self users es' mandatory with
  | Ok r, Ok r' =>
      report_metrics r = report_metrics r'
      ∧ report_untrained_users r ≡ₚ report_untrained_users r'
  | Raise x, Raise x' => x = x'
  | _, _ => False
  end.
Proof.
  intros Hsame.
  destruct (analyse_training_data_cases self users es mandatory)
    as [[(x & Hx & Hbad) Hr] | [Hall Hr]];
    destruct (analyse_training_data_cases self users es' mandatory)
      as [[(y & Hy & Hbad') Hr'] | [Hall' Hr']]; rewrite Hr, Hr'.
  - reflexivity.
  - rewrite Hall' in Hbad; [discriminate | by apply Hsame].
  - rewrite Hall in Hbad'; [discriminate | by apply Hsame].
  - simpl. by rewrite (marked_same_elements mandatory es es' Hsame).
Qed.

Lemma marked_none (mandatory : list string) (es : list enrollment) :
  (∀ e, e ∈ es → campaign_name e ∉ mandatory) →
  marked strptime now mandatory es = ∅.
Proof.
  intros Hnone. apply set_eq. intros i. unfold marked. rewrite elem_of_marked.
  split; [| set_solver]. intros (e & He & _ & Hc & _). by apply Hnone in Hc.
Qed.

(** X4: when no enrollment is of a mandatory campaign (in particular for an
    empty list of mandatory campaigns or of enrollments) the analysis does
    not raise, whatever the due dates, and reports no untrained user and no
    row. *)
Theorem no_mandatory_enrollment (self : KnowBe4ReportGenerator) (users : list user)
    (mandatory : list string) (es : list enrollment) :
  (∀ e, e ∈ es → campaign_name e ∉ mandatory) →
  ∃ r, analyse_training_data strptime now self users es mandatory = Ok r
       ∧ Total_Users (report_metrics r) = Z.of_nat (length users)
       ∧ Total_Untrained_Users (report_metrics r) = 0
       ∧ report_untrained_users r = [].
Proof.
  intros Hnone.
  destruct (analyse_training_data_cases self users es mandatory)
    as [[(x & Hx & Hbad) _] | [_ Hr]].
  - apply malformed_iff in Hbad as [Hc _]. by apply Hnone in Hc.
  - eexists. split; [exact Hr |]. simpl. rewrite (marked_none mandatory es Hnone).
    rewrite size_empty. unfold untrained_rows. rewrite elements_empty. auto.
Qed.

End AnalysisMore.

Lemma irrelevant_enrollment_ignored_witness :
  analyse_training_data strptime_iso Sample.clock Sample.generator [Sample.user_1]
    ([Sample.failed_2000] ++ Sample.completed_garbled :: []) ["Security101"%string] =
  analyse_training_data strptime_iso Sample.clock Sample.generator [Sample.user_1]
    ([Sample.failed_2000] ++ []) ["Security101"%string].
Proof.
  apply (irrelevant_enrollment_ignored strptime_iso Sample.clock).
  right. reflexivity.
Defined.

Lemma analysis_order_irrelevant_witness :
  match analyse_training_data strptime_iso Sample.clock Sample.generator [Sample.user_1]
          [Sample.failed_2000; Sample.stranger_98] ["Security101"%string],
        analyse_training_data strptime_iso Sample.clock Sample.generator [Sample.user_1]
          [Sample.stranger_98; Sample.failed_2000; Sample.stranger_98]
          ["Security101"%string] with
  | Ok r, Ok r' =>
      report_metrics r = report_metrics r'
      ∧ report_untrained_users r ≡ₚ report_untrained_users r'
  | Raise x, Raise x' => x = x'
  | _, _ => False
  end.
Proof.
  apply (analysis_order_irrelevant strptime_iso Sample.clock).
  intros e. rewrite !elem_of_cons, !elem_of_nil. tauto.
Defined.

Lemma no_mandatory_enrollment_witness :
  ∃ r, analyse_training_data strptime_iso Sample.clock Sample.generator [Sample.user_1]
         [Sample.failed_garbled] [] = Ok r
       ∧ Total_Users (report_metrics r) = Z.of_nat (length [Sample.user_1])
       ∧ Total_Untrained_Users (report_metrics r) = 0
       ∧ report_untrained_users r = [].
Proof.
  apply (no_mandatory_enrollment strptime_iso Sample.clock).
  intros e _ Hc. by apply elem_of_nil in Hc.
Defined.

(* ===================================================================== *)
(** ** The shape of the report *)
(* ===================================================================== *)

Section ReportShape.

Variable strptime : string → option datetime.
Variable now : datetime.

(** X5: among users with the same id the last one of the list is the one
    the lookup keeps, and the row of an untrained id is built from it. *)
Theorem user_lookup_last_wins (self : KnowBe4ReportGenerator) (users : list user) (i : Z) :
  build_user_lookup users !! i = last (filter (λ u, uid u = i) users)
  ∧ untrained_rows self (build_user_lookup users) {[i]} =
      match last (filter (λ u, uid u = i) users) with
      | Some u => [untrained_row self u]
      | None => []
      end.
Proof.
  assert (Hlast : build_user_lookup users !! i = last (filter (λ u, uid u = i) users)).
  { unfold build_user_lookup. induction users as [| u users IH] using rev_ind.
    - reflexivity.
    - rewrite foldl_app, filter_app. simpl. rewrite filter_cons, filter_nil.
      destruct (decide (uid u = i)) as [<- | Hne].
      + rewrite lookup_insert_eq. by rewrite last_snoc.
      + rewrite lookup_insert_ne by exact Hne. by rewrite app_nil_r. }
  split; [exact Hlast |].
  unfold untrained_rows. rewrite elements_singleton. simpl. rewrite Hlast.
  by destruct (last _).
Qed.

Lemma dict_get_set (k k' : string) (v : value) (d : row) :
  dict_get k' (dict_set k v d) = if bool_decide (k = k') then Some v else dict_get k' d.
Proof.
  induction d as [| [k0 v0] d IH]; simpl.
  - reflexivity.
  - destruct (bool_decide (k0 = k)) eqn:E0; simpl.
    + apply bool_decide_eq_true in E0 as ->.
      destruct (bool_decide (k = k')); reflexivity.
    + rewrite IH. apply bool_decide_eq_false in E0.
      destruct (bool_decide (k0 = k')) eqn:E1; [| reflexivity].
      apply bool_decide_eq_true in E1 as ->.
      by rewrite bool_decide_eq_false_2 by congruence.
Qed.

Lemma dict_set_keys (k : string) (v : value) (d : row) :
  (dict_set k v d).*1 = if bool_decide (k ∈ d.*1) then d.*1 else d.*1 ++ [k].
Proof.
  induction d as [| [k0 v0] d IH].
  - cbn [dict_set fmap list_fmap fst app].
    by rewrite bool_decide_eq_false_2 by apply not_elem_of_nil.
  - cbn [dict_set]. destruct (bool_decide (k0 = k)) eqn:E0;
      cbn [fmap list_fmap fst] in *.
    + apply bool_decide_eq_true in E0 as ->.
      by rewrite bool_decide_eq_true_2 by apply list_elem_of_here.
    + apply bool_decide_eq_false in E0. rewrite IH.
      destruct (bool_decide (k ∈ d.*1)) eqn:E1.
      * apply bool_decide_eq_true in E1.
        by rewrite bool_decide_eq_true_2 by (by apply list_elem_of_further).
      * apply bool_decide_eq_false in E1.
        rewrite bool_decide_eq_false_2; [reflexivity |].
        intros Hin. apply elem_of_cons in Hin as [-> | Hin]; contradiction.
Qed.

(** Setting the optional fields one after the other on a dictionary. *)
Lemma fold_dict_set (f : string → value) (fields : list string) (d0 : row) :
  let d := foldl (λ d field, dict_set field (f field) d) d0 fields in
  d0.*1 `prefix_of` d.*1
  ∧ (NoDup d0.*1 → NoDup d.*1)
  ∧ (∀ k, k ∈ d.*1 ↔ k ∈ d0.*1 ∨ k ∈ fields)
  ∧ (∀ k, k ∈ fields → dict_get k d = Some (f k))
  ∧ (∀ k, k ∉ fields → dict_get k d = dict_get k d0).
Proof.
  induction fields as [| g fields IH] using rev_ind; simpl.
  - split; [reflexivity |]. split; [auto |]. split; [set_solver |].
    split; [set_solver | auto].
  - rewrite foldl_app. simpl.
    set (d := foldl (λ d field, dict_set field (f field) d) d0 fields) in *.
    destruct IH as (Hpre & Hnd & Hkeys & Hin & Hout).
    rewrite dict_set_keys.
    split; [| split; [| split; [| split]]].
    + case_bool_decide; [exact Hpre |]. by apply prefix_app_r.
    + intros H0. specialize (Hnd H0). case_bool_decide; [exact Hnd |].
      apply NoDup_app. split; [exact Hnd |]. split; [| apply NoDup_singleton].
      intros x Hx Hx'. apply list_elem_of_singleton in Hx' as ->. contradiction.
    + intros k. case_bool_decide as Hg.
      * rewrite Hkeys, elem_of_app, list_elem_of_singleton.
        apply Hkeys in Hg. split; [tauto |]. intros [? | [? | ->]]; tauto.
      * rewrite !elem_of_app, list_elem_of_singleton, Hkeys. tauto.
    + intros k Hk. rewrite dict_get_set. case_bool_decide as Hgk; [by subst |].
      apply Hin. apply elem_of_app in Hk as [Hk | Hk]; [exact Hk |].
      apply list_elem_of_singleton in Hk. congruence.
    + intros k Hk. rewrite dict_get_set.
      rewrite bool_decide_eq_false_2 by (intros ->; apply Hk, elem_of_app; right; by left).
      apply Hout. intros Hk'. apply Hk, elem_of_app. by left.
Qed.

(** X6: the row of a user starts with the keys Name, Email and Manager, has
    every key once, and has beside them exactly the configured optional
    fields.  Under each optional field stands what the user record holds
    under that key, JSON [null] included, and N/A only when the record
    lacks the key; this also holds when the field is called Name, Email or
    Manager.  A key of the three that is no optional field keeps the name,
    the e-mail address, or what the record holds under [manager_name]
    ([null] included, N/A for a record without the key). *)
Theorem untrained_row_shape (self : KnowBe4ReportGenerator) (u : user) :
  base_keys `prefix_of` (untrained_row self u).*1
  ∧ NoDup (untrained_row self u).*1
  ∧ (∀ k, k ∈ (untrained_row self u).*1 ↔ k ∈ base_keys ∨ k ∈ optional_user_fields self)
  ∧ (∀ k, k ∈ optional_user_fields self →
          dict_get k (untrained_row self u)
          = Some (default (VStr "N/A") (user_get u k)))
  ∧ ("Name"%string ∉ optional_user_fields self →
     dict_get "Name" (untrained_row self u)
     = Some (VStr (first_name u +:+ " " +:+ last_name u)))
  ∧ ("Email"%string ∉ optional_user_fields self →
     dict_get "Email" (untrained_row self u) = Some (VStr (email u)))
  ∧ ("Manager"%string ∉ optional_user_fields self →
     dict_get "Manager" (untrained_row self u)
     = Some (default (VStr "N/A") (manager_name u))).
Proof.
  unfold untrained_row.
  destruct (fold_dict_set (λ field, default (VStr "N/A") (user_get u field))
              (optional_user_fields self)
              [("Name"%string, VStr (first_name u +:+ " " +:+ last_name u));
               ("Email"%string, VStr (email u));
               ("Manager"%string, default (VStr "N/A") (manager_name u))])
    as (Hpre & Hnd & Hkeys & Hin & Hout).
  split; [exact Hpre |]. split.
  { apply Hnd. simpl. repeat (apply NoDup_cons; split; [set_solver |]). apply NoDup_nil_2. }
  split; [exact Hkeys |]. split; [exact Hin |].
  split; [| split]; intros Hk; rewrite (Hout _ Hk); reflexivity.
Qed.

(** A manager and a department that are [null] stay [null] in the row;
    only the field the record lacks becomes N/A. *)
Example untrained_row_null :
  untrained_row Sample.generator_fields Sample.user_3
  = [("Name"%string, VStr "E F"); ("Email"%string, VStr "e@x.com");
     ("Manager"%string, VNone); ("department"%string, VNone);
     ("location"%string, VStr "N/A")]
  ∧ untrained_row Sample.generator_fields Sample.user_2
    = [("Name"%string, VStr "C D"); ("Email"%string, VStr "c@x.com");
       ("Manager"%string, VStr "A B"); ("department"%string, VStr "Sales");
       ("location"%string, VStr "N/A")].
Proof. split; vm_compute; reflexivity. Qed.

Lemma length_omap_le {A B} (f : A → option B) (l : list A) :
  (length (omap f l) ≤ length l)%nat.
Proof. induction l as [| x l IH]; csimpl; [done |]. destruct (f x); csimpl; lia. Qed.

Lemma length_omap_total {A B} (f : A → option B) (l : list A) :
  (∀ x, x ∈ l → is_Some (f x)) → length (omap f l) = length l.
Proof.
  induction l as [| x l IH]; intros Hall; csimpl; [reflexivity |].
  destruct (Hall x) as [y ->]; [by left |]. csimpl. f_equal. apply IH.
  intros z Hz. apply Hall. by right.
Qed.

Lemma build_user_lookup_Some (users : list user) (i : Z) :
  i ∈ uid <$> users → is_Some (build_user_lookup users !! i).
Proof.
  intros Hi. apply elem_of_dom. unfold build_user_lookup.
  rewrite foldl_insert_dom. set_solver.
Qed.

Lemma size_marked_le (mandatory : list string) (es : list enrollment) :
  (size (marked strptime now mandatory es) ≤ length es)%nat.
Proof.
  unfold marked. etransitivity; [apply size_list_to_set_le |].
  rewrite length_fmap. apply length_filter.
Qed.

(** X7: a report has at most as many rows as untrained users, and at most
    as many untrained users as there are enrollments; when every enrollment
    belongs to an input user the rows are as many as the untrained users. *)
Theorem report_counts (self : KnowBe4ReportGenerator) (users : list user)
    (es : list enrollment) (mandatory : list string) (r : report) :
  analyse_training_data strptime now self users es mandatory = Ok r →
  Z.of_nat (length (report_untrained_users r)) ≤ Total_Untrained_Users (report_metrics r)
  ∧ Total_Untrained_Users (report_metrics r) ≤ Z.of_nat (length es)
  ∧ ((∀ e, e ∈ es → user_id e ∈ uid <$> users) →
     Z.of_nat (length (report_untrained_users r))
     = Total_Untrained_Users (report_metrics r)).
Proof.
  intros Hr. apply analyse_training_data_Ok in Hr as [_ ->]. simpl.
  unfold untrained_rows. split; [| split].
  - apply inj_le. etransitivity; [apply length_omap_le |]. done.
  - apply inj_le, size_marked_le.
  - intros Hall. f_equal. rewrite length_omap_total; [done |].
    intros i Hi. apply elem_of_elements, elem_of_marked in Hi as (e & He & <- & _).
    destruct (build_user_lookup_Some users (user_id e) (Hall e He)) as [u ->].
    by eexists.
Qed.

(** X8: for a users list that is not empty, the completion rate is 100 when
    no user id is untrained and 0 when the untrained ids are as many as the
    users. *)
Theorem completion_rate_endpoints (self : KnowBe4ReportGenerator) (users : list user)
    (es : list enrollment) (mandatory : list string) (r : report) :
  analyse_training_data strptime now self users es mandatory = Ok r →
  users ≠ [] →
  (Total_Untrained_Users (report_metrics r) = 0 →
   (Completion_Rate (report_metrics r) == 100)%Q)
  ∧ (Total_Untrained_Users (report_metrics r) = Total_Users (report_metrics r) →
     Completion_Rate (report_metrics r) = 0%Q).
Proof.
  intros Hr Hne. apply analyse_training_data_Ok in Hr as [_ ->]. simpl.
  assert (Hn : 0 < Z.of_nat (length users)) by (destruct users; [done | simpl; lia]).
  unfold completion_rate.
  rewrite (proj2 (Z.eqb_neq _ _)) by lia. simpl. split.
  - intros ->. rewrite Z.sub_0_r. by apply Binary64Exact.percent_full.
  - intros ->. rewrite Z.sub_diag. apply Binary64Exact.percent_none.
Qed.

(** X9: enrollments added to the input never raise the completion rate:
    when the analysis returns for a list of enrollments and for a longer
    one that contains it, the rate of the longer list is at most that of
    the shorter. *)
Theorem more_enrollments_lower_rate (self : KnowBe4ReportGenerator) (users : list user)
    (mandatory : list string) (es more : list enrollment) (r r' : report) :
  analyse_training_data strptime now self users es mandatory = Ok r →
  analyse_training_data strptime now self users (es ++ more) mandatory = Ok r' →
  Total_Untrained_Users (report_metrics r) ≤ Total_Untrained_Users (report_metrics r')
  ∧ (Completion_Rate (report_metrics r') <= Completion_Rate (report_metrics r))%Q.
Proof.
  intros Hr Hr'. apply analyse_training_data_Ok in Hr as [_ ->].
  apply analyse_training_data_Ok in Hr' as [_ ->]. simpl.
  assert (Hsize : Z.of_nat (size (marked strptime now mandatory es))
                  ≤ Z.of_nat (size (marked strptime now mandatory (es ++ more)))).
  { apply inj_le, subseteq_size. intros i Hi.
    apply elem_of_marked in Hi as (e & He & Hrest). apply elem_of_marked.
    exists e. split; [apply elem_of_app; by left | exact Hrest]. }
  split; [exact Hsize |]. unfold completion_rate.
  destruct (Z.of_nat (length users) =? 0) eqn:Hz; simpl.
  - apply Qle_refl.
  - apply Z.eqb_neq in Hz. apply Binary64Exact.percent_antitone; lia.
Qed.

End ReportShape.

(* ===================================================================== *)
(** ** Requests and heap of the paged retrieval *)
(* ===================================================================== *)

Lemma stamp_stamp (p q : Z) (d : dict) : stamp p (stamp q d) = stamp p d.
Proof.
  unfold stamp. apply map_eq. intros k. rewrite !lookup_insert.
  repeat case_decide; congruence.
Qed.

Lemma stamp_nonempty (p : Z) (d : dict) : stamp p d ≠ ∅.
Proof. unfold stamp. apply insert_non_empty. Qed.

Lemma stamp_lookup_page (p : Z) (d : dict) : stamp p d !! "page"%string = Some (VInt p).
Proof. unfold stamp. rewrite lookup_insert_ne by done. apply lookup_insert_eq. Qed.

Lemma stamp_lookup_per_page (p : Z) (d : dict) :
  stamp p d !! "per_page"%string = Some (VInt per_page).
Proof. unfold stamp. apply lookup_insert_eq. Qed.

Lemma stamp_lookup_other (p : Z) (d : dict) (k : string) :
  k ≠ "page"%string → k ≠ "per_page"%string → stamp p d !! k = d !! k.
Proof. intros H1 H2. unfold stamp. by rewrite !lookup_insert_ne by done. Qed.

Lemma contents_store_ne (l l' : loc) (d : dict) (w : world) :
  l ≠ l' → contents l (store l' d w) = contents l w.
Proof. intros Hne. unfold contents, store. simpl. by rewrite lookup_insert_ne. Qed.

Lemma contents_send (l : loc) (r : request) (w : world) :
  contents l (send r w) = contents l w.
Proof. reflexivity. Qed.

Section TraceFacts.

Context {A : Type}.
Variable self : KnowBe4ReportGenerator.
Variable server : request → reply A.
Variable endpoint : string.

(** A pass that builds a new dictionary: the caller gave none or an empty
    one. *)
Lemma issue_new (params : option loc) (page : Z) (w : world) :
  base_query params w = ∅ →
  issue self endpoint params page w =
    (request_of self endpoint params page w,
     send (request_of self endpoint params page w)
       (store (fresh (dom (heap w))) (stamp page ∅)
          (store (fresh (dom (heap w))) ∅ w))).
Proof.
  intros Hemp. unfold issue, params_or_new, request_of. rewrite Hemp.
  destruct params as [l0 |]; simpl in Hemp;
    [rewrite bool_decide_eq_true_2 by exact Hemp |];
    unfold new_dict; cbn [fst snd]; by rewrite !contents_store.
Qed.

(** A pass on the caller's own dictionary. *)
Lemma issue_alias (page : Z) (w : world) (l : loc) :
  contents l w ≠ ∅ →
  issue self endpoint (Some l) page w =
    (request_of self endpoint (Some l) page w,
     send (request_of self endpoint (Some l) page w)
       (store l (stamp page (contents l w)) w)).
Proof.
  intros Hne. unfold issue, params_or_new, request_of. simpl.
  rewrite bool_decide_eq_false_2 by exact Hne. by rewrite !contents_store.
Qed.

(** What one pass of the loop does before the call of [requests.get]. *)
Lemma issue_spec (params : option loc) (page : Z) (w : world) :
  live params w →
  (issue self endpoint params page w).1 = request_of self endpoint params page w
  ∧ live params (issue self endpoint params page w).2
  ∧ (∀ p, stamp p (base_query params (issue self endpoint params page w).2)
          = stamp p (base_query params w))
  ∧ dom (heap w) ⊆ dom (heap (issue self endpoint params page w).2)
  ∧ (∀ l, l ∈ dom (heap w) → (params = Some l → contents l w = ∅) →
          heap (issue self endpoint params page w).2 !! l = heap w !! l)
  ∧ (∀ l, params = Some l → contents l w ≠ ∅ →
          contents l (issue self endpoint params page w).2 = stamp page (contents l w)).
Proof.
  intros Hlive.
  destruct (decide (base_query params w = ∅)) as [Hemp | Hne].
  - rewrite (issue_new params page w Hemp). cbn [fst snd].
    assert (Hframe : ∀ l, l ∈ dom (heap w) →
      heap (send (request_of self endpoint params page w)
              (store (fresh (dom (heap w))) (stamp page ∅)
                 (store (fresh (dom (heap w))) ∅ w))) !! l = heap w !! l).
    { intros l Hl. simpl.
      assert (fresh (dom (heap w)) ≠ l) by (intros <-; by apply (is_fresh (dom (heap w)))).
      by rewrite !lookup_insert_ne by done. }
    assert (Hdom : dom (heap w) ⊆ dom (heap (send (request_of self endpoint params page w)
              (store (fresh (dom (heap w))) (stamp page ∅)
                 (store (fresh (dom (heap w))) ∅ w))))).
    { simpl. rewrite !dom_insert. set_solver. }
    split; [reflexivity |]. split.
    { destruct params as [l0 |]; [| done]. simpl in *. by apply Hdom. }
    split.
    { intros p. f_equal. destruct params as [l0 |]; [| done]. simpl in *.
      unfold contents. f_equal. exact (Hframe l0 Hlive). }
    split; [exact Hdom |]. split; [intros l Hl _; by apply Hframe |].
    intros l Hp Hne. rewrite Hp in Hemp. contradiction.
  - destruct params as [l0 |]; [| done]. simpl in Hne, Hlive.
    rewrite (issue_alias page w l0 Hne). cbn [fst snd].
    split; [reflexivity |]. split; [simpl; rewrite dom_insert; set_solver |].
    split.
    { intros p. simpl. rewrite contents_send, contents_store. apply stamp_stamp. }
    split; [simpl; rewrite dom_insert; set_solver |]. split.
    + intros l Hl Hcond. simpl.
      assert (l0 ≠ l) by (intros <-; by apply Hne, Hcond).
      by rewrite lookup_insert_ne by done.
    + intros l [= <-] _. by rewrite contents_send, contents_store.
Qed.

(** What a call of the loop leaves behind, whether it returns or raises:
    one request per pass, each with the caller's parameters and the page
    of the pass; the dictionaries of the heap unchanged, but for the
    caller's own when it is not empty, which holds the last page. *)
Lemma paginate_trace (params : option loc) (fuel : nat) :
  ∀ (all_results : list A) (page : Z) (response : option (response A))
    (w w' : world) (res : result (list A)),
  live params w →
  paginate fuel self server endpoint params all_results page response w = Some (w', res) →
  ∃ rs, rs ≠ []
    ∧ requests_sent w' = requests_sent w ++ rs
    ∧ (∀ i r, rs !! i = Some r →
              r = request_of self endpoint params (page + Z.of_nat i) w)
    ∧ (∀ l, l ∈ dom (heap w) → (params = Some l → contents l w = ∅) →
            heap w' !! l = heap w !! l)
    ∧ (∀ l, params = Some l → contents l w ≠ ∅ →
            contents l w' = stamp (page + Z.of_nat (length rs) - 1) (contents l w)).
Proof.
  induction fuel as [| fuel IH]; intros all_results page response w w' res Hlive;
    simpl; [discriminate |].
  destruct (issue_spec params page w Hlive) as (Hreq & Hlive1 & Hinv & Hdom & Hframe & Halias).
  pose proof (issue_effects self endpoint params page w) as (Hs & _ & _).
  destruct (issue self endpoint params page w) as [req w1]. cbn [fst snd] in *.
  assert (Hone : ∀ w2, heap w2 = heap w1 → requests_sent w2 = requests_sent w1 →
    ∃ rs, rs ≠ []
      ∧ requests_sent w2 = requests_sent w ++ rs
      ∧ (∀ i r, rs !! i = Some r →
                r = request_of self endpoint params (page + Z.of_nat i) w)
      ∧ (∀ l, l ∈ dom (heap w) → (params = Some l → contents l w = ∅) →
              heap w2 !! l = heap w !! l)
      ∧ (∀ l, params = Some l → contents l w ≠ ∅ →
              contents l w2 = stamp (page + Z.of_nat (length rs) - 1) (contents l w))).
  { intros w2 Hh Hr. exists [req]. split; [done |]. split; [by rewrite Hr, Hs |].
    split.
    { intros [| i] r Hi; [| done]. injection Hi as <-. by rewrite Z.add_0_r. }
    split; [intros l Hl Hc; rewrite Hh; by apply Hframe |].
    intros l Hp Hne. unfold contents. rewrite Hh.
    replace (page + Z.of_nat (length [req]) - 1) with page by (simpl; lia).
    by apply Halias. }
  unfold on_request_exception, finish.
  destruct (server req) as [| r1].
  { destruct response; intros [= <- _]; by apply Hone. }
  destruct (raises_for_status r1); [intros [= <- _]; by apply Hone |].
  destruct (json r1) as [[| x data] |]; try (intros [= <- _]; by apply Hone).
  destruct (Z.of_nat (length (x :: data)) <? per_page); [intros [= <- _]; by apply Hone |].
  intros Hrun. apply IH in Hrun as (rs & _ & Hrs & Hreqs & Hfr & Hal); [| exact Hlive1].
  exists (req :: rs). split; [done |]. split; [by rewrite Hrs, Hs, <- app_assoc |].
  split.
  { intros [| i] r Hi.
    - injection Hi as <-. by rewrite Z.add_0_r.
    - simpl in Hi. rewrite (Hreqs i r Hi). unfold request_of. f_equal.
      replace (page + 1 + Z.of_nat i) with (page + Z.of_nat (S i)) by lia. apply Hinv. }
  split.
  { intros l Hl Hc. rewrite Hfr; [by apply Hframe | by apply Hdom |].
    intros Hp. unfold contents. rewrite Hframe by done. by apply Hc. }
  intros l Hp Hne. rewrite Hal; [| exact Hp |].
  - rewrite (Halias l Hp Hne), stamp_stamp. f_equal. simpl length. lia.
  - rewrite (Halias l Hp Hne). apply stamp_nonempty.
Qed.

End TraceFacts.

Section RetrievalMore.

Context {A : Type}.
Variable self : KnowBe4ReportGenerator.
Variable server : request → reply A.
Variable endpoint : string.

(** X10: every request of a call goes to the endpoint under the base URL
    and carries the caller's parameters with [per_page] 500 and the page of
    its pass, the pages counting up from 1; this holds whether the call
    returns or raises. *)
Theorem requests_carry_parameters (params : option loc) (fuel : nat) (w w' : world)
    (res : result (list A)) :
  live params w →
  _paginated_get fuel self server endpoint params w = Some (w', res) →
  ∃ rs, rs ≠ []
    ∧ requests_sent w' = requests_sent w ++ rs
    ∧ ∀ i r, rs !! i = Some r →
        url r = base_url self +:+ endpoint
        ∧ page_of r = Some (1 + Z.of_nat i)
        ∧ query r !! "per_page"%string = Some (VInt 500)
        ∧ ∀ k, k ≠ "page"%string → k ≠ "per_page"%string →
               query r !! k = base_query params w !! k.
Proof.
  intros Hlive Hrun.
  destruct (paginate_trace self server endpoint params fuel [] 1 None w w' res Hlive Hrun)
    as (rs & Hne & Hrs & Hreqs & _).
  exists rs. split; [exact Hne |]. split; [exact Hrs |].
  intros i r Hi. rewrite (Hreqs i r Hi). unfold request_of, page_of. simpl.
  split; [reflexivity |]. rewrite stamp_lookup_page. split; [reflexivity |].
  split; [apply stamp_lookup_per_page |]. intros k. apply stamp_lookup_other.
Qed.

(** X11: a call changes no dictionary that was in the heap before it,
    except the caller's own when that is not empty: this one holds, after
    the call, its old entries with [per_page] 500 and [page] the number of
    requests the call made. *)
Theorem heap_after_paginated_get (params : option loc) (fuel : nat) (w w' : world)
    (res : result (list A)) :
  live params w →
  _paginated_get fuel self server endpoint params w = Some (w', res) →
  (∀ l, l ∈ dom (heap w) → (params = Some l → contents l w = ∅) →
        heap w' !! l = heap w !! l)
  ∧ (∀ l, params = Some l → contents l w ≠ ∅ →
          ∃ n : nat,
            length (requests_sent w') = (length (requests_sent w) + n)%nat
            ∧ (0 < n)%nat
            ∧ contents l w' = stamp (Z.of_nat n) (contents l w)).
Proof.
  intros Hlive Hrun.
  destruct (paginate_trace self server endpoint params fuel [] 1 None w w' res Hlive Hrun)
    as (rs & Hne & Hrs & _ & Hframe & Halias).
  split; [exact Hframe |]. intros l Hp Hnemp. exists (length rs).
  split; [by rewrite Hrs, length_app |]. split; [destruct rs; [done | simpl; lia] |].
  rewrite (Halias l Hp Hnemp). f_equal. lia.
Qed.

(** X12: [_paginated_get] raises exactly when its first call of
    [requests.get] raised; on every other run it returns a list. *)
Theorem paginated_get_raises_iff (params : option loc) (fuel : nat) (w : world) :
  (∃ w' e, _paginated_get (S fuel) self server endpoint params w = Some (w', Raise e))
  ↔ server (issue self endpoint params 1 w).1 = NoResponse.
Proof.
  split.
  - intros (w' & e & Hrun).
    by apply (paginated_get_raises_inv self server endpoint params) in Hrun as [_ ?].
  - intros Hno. unfold _paginated_get. simpl.
    destruct (issue self endpoint params 1 w) as [req w1]. simpl in Hno.
    rewrite Hno. unfold on_request_exception. eauto.
Qed.

(** Full pages and then a reply that fails: the loop returns the records
    of the full pages. *)
Lemma paginate_until_failure (params : option loc) (fulls : list (list A)) :
  ∀ (fuel : nat) (all_results : list A) (page : Z) (response : option (response A))
    (w : world),
  (∀ k p, fulls !! k = Some p → length p = 500%nat ∧ serves server (page + Z.of_nat k) p) →
  (∀ req, asks req (page + Z.of_nat (length fulls)) →
     fails (server req)
     ∧ (server req = NoResponse → fulls ≠ [] ∨ is_Some response)) →
  ∃ w',
    paginate (S (length fulls) + fuel) self server endpoint params all_results page
      response w = Some (w', Ok (all_results ++ concat fulls))
    ∧ length (requests_sent w') = (length (requests_sent w) + S (length fulls))%nat
    ∧ files w' = files w.
Proof.
  induction fulls as [| p fulls IH]; intros fuel all_results page response w Hfull Hfail.
  - simpl. pose proof (issue_asks self endpoint params page w) as Hasks.
    pose proof (issue_effects self endpoint params page w) as (Hs & _ & Hf).
    destruct (issue self endpoint params page w) as [req w1]. cbn [fst snd] in *.
    simpl in Hfail. rewrite Z.add_0_r in Hfail.
    destruct (Hfail req Hasks) as [Hbad Hbound]. rewrite app_nil_r.
    unfold on_request_exception, finish.
    destruct Hbad as [Hno | (r & Hr & Hbad)].
    + rewrite Hno. destruct (Hbound Hno) as [? | [r0 ->]]; [done |].
      eexists. split; [reflexivity |]. simpl. rewrite Hs, length_app. simpl. auto.
    + rewrite Hr. destruct Hbad as [-> | Hj].
      * eexists. split; [reflexivity |]. simpl. rewrite Hs, length_app. simpl. auto.
      * destruct (raises_for_status r); rewrite ?Hj;
          (eexists; split; [reflexivity |]; simpl; rewrite Hs, length_app; simpl; auto).
  - destruct (Hfull 0%nat p eq_refl) as [Hp Hsrv]. rewrite Z.add_0_r in Hsrv.
    destruct (paginate_full_page self server endpoint params (S (length fulls) + fuel)
                all_results p page response w Hsrv Hp) as [r Hstep].
    pose proof (issue_effects self endpoint params page w) as (Hs1 & _ & Hf1).
    destruct (IH fuel (all_results ++ p) (page + 1) (Some r)
                (issue self endpoint params page w).2) as (w' & Hrun & Hs & Hf).
    + intros k q Hk. destruct (Hfull (S k) q Hk) as [Hq Hsq]. split; [exact Hq |].
      replace (page + 1 + Z.of_nat k) with (page + Z.of_nat (S k)) by lia. exact Hsq.
    + intros req Hreq. destruct (Hfail req) as [Hbad _].
      * replace (page + Z.of_nat (length (p :: fulls)))
          with (page + 1 + Z.of_nat (length fulls)) by (simpl; lia). exact Hreq.
      * split; [exact Hbad |]. intros _. right. by eexists.
    + exists w'. split; [| split].
      * change (S (length (p :: fulls)) + fuel)%nat with (S (S (length fulls) + fuel)).
        rewrite Hstep, Hrun. simpl. by rewrite <- !app_assoc.
      * rewrite Hs, Hs1, length_app. simpl. lia.
      * by rewrite Hf, Hf1.
Qed.

(** X13: when the pages before it were full and the next request fails (no
    response, an error status, or a body that is not JSON), the call
    returns the records of the pages before; a first request that fails
    with an error status or a body that is not JSON gives the empty list. *)
Theorem partial_result_on_failure (params : option loc) (fulls : list (list A))
    (fuel : nat) (w : world) :
  (∀ k p, fulls !! k = Some p → length p = 500%nat ∧ serves server (1 + Z.of_nat k) p) →
  (∀ req, asks req (1 + Z.of_nat (length fulls)) →
     fails (server req) ∧ (server req = NoResponse → fulls ≠ [])) →
  ∃ w',
    _paginated_get (S (length fulls) + fuel) self server endpoint params w
      = Some (w', Ok (concat fulls))
    ∧ length (requests_sent w') = (length (requests_sent w) + S (length fulls))%nat.
Proof.
  intros Hfull Hfail.
  destruct (paginate_until_failure params fulls fuel [] 1 None w Hfull)
    as (w' & Hrun & Hs & _).
  - intros req Hreq. destruct (Hfail req Hreq) as [Hbad Hne].
    split; [exact Hbad |]. intros Hno. left. by apply Hne.
  - exists w'. split; [exact Hrun | exact Hs].
Qed.

(** The log of a run over full pages and a short one. *)
Lemma paginate_until_short_log (params : option loc) (fulls : list (list A))
    (last : list A) :
  ∀ (fuel : nat) (all_results : list A) (page : Z) (response : option (response A))
    (w w' : world) (res : result (list A)),
  (∀ k p, fulls !! k = Some p → length p = 500%nat ∧ serves server (page + Z.of_nat k) p) →
  (length last < 500)%nat →
  serves server (page + Z.of_nat (length fulls)) last →
  paginate (S (length fulls) + fuel) self server endpoint params all_results page
    response w = Some (w', res) →
  ∃ t, log w' = log w
         ++ match last with [] => [ErrorEmptyResponse endpoint t] | _ => [] end
         ++ [InfoFetched (length (all_results ++ concat fulls ++ last)) endpoint].
Proof.
  induction fulls as [| p fulls IH];
    intros fuel all_results page response w w' res Hfull Hlen Hlast.
  - simpl. pose proof (issue_asks self endpoint params page w) as Hasks.
    pose proof (issue_effects self endpoint params page w) as (_ & Hl & _).
    destruct (issue self endpoint params page w) as [req w1]. cbn [fst snd] in *.
    simpl in Hlast. rewrite Z.add_0_r in Hlast.
    destruct (Hlast req Hasks) as (r & -> & -> & ->). unfold finish.
    destruct last as [| x last].
    + intros [= <- _]. exists (text r). simpl. rewrite Hl, app_nil_r.
      by rewrite <- app_assoc.
    + assert (Hlt : (Z.of_nat (length (x :: last)) <? per_page) = true)
        by (apply Z.ltb_lt; unfold per_page; lia).
      rewrite Hlt. intros [= <- _]. exists EmptyString. simpl. by rewrite Hl.
  - destruct (Hfull 0%nat p eq_refl) as [Hp Hsrv]. rewrite Z.add_0_r in Hsrv.
    destruct (paginate_full_page self server endpoint params (S (length fulls) + fuel)
                all_results p page response w Hsrv Hp) as [r Hstep].
    pose proof (issue_effects self endpoint params page w) as (_ & Hl1 & _).
    change (S (length (p :: fulls)) + fuel)%nat with (S (S (length fulls) + fuel)).
    rewrite Hstep. intros Hrun.
    apply IH in Hrun as [t Hlog].
    + exists t. rewrite Hlog, Hl1. simpl. by rewrite <- !app_assoc.
    + intros k q Hk. destruct (Hfull (S k) q Hk) as [Hq Hsq]. split; [exact Hq |].
      replace (page + 1 + Z.of_nat k) with (page + Z.of_nat (S k)) by lia. exact Hsq.
    + exact Hlen.
    + replace (page + 1 + Z.of_nat (length fulls))
        with (page + Z.of_nat (length (p :: fulls))) by (simpl; lia). exact Hlast.
Qed.

End RetrievalMore.

(* ===================================================================== *)
(** ** The whole collection, and what the fetchers ask for *)
(* ===================================================================== *)

Lemma full_pages_concat {A} (n : nat) (ds : list A) :
  concat (full_pages n ds) = take (500 * n) ds.
Proof.
  unfold full_pages. induction n as [| n IH].
  - by rewrite Nat.mul_0_r.
  - rewrite seq_S, fmap_app, concat_app, IH. simpl. rewrite app_nil_r.
    rewrite take_take_drop. f_equal. lia.
Qed.

Lemma full_pages_lookup {A} (n : nat) (ds : list A) (k : nat) (p : list A) :
  (500 * n ≤ length ds)%nat → full_pages n ds !! k = Some p →
  length p = 500%nat ∧ p = take 500 (drop (500 * k) ds).
Proof.
  intros Hn Hk. unfold full_pages in Hk. rewrite list_lookup_fmap in Hk.
  destruct (seq 0 n !! k) as [j |] eqn:Hj; [| discriminate].
  apply lookup_seq in Hj as [-> Hlt]. injection Hk as <-. simpl.
  split; [| reflexivity]. rewrite length_take, length_drop. lia.
Qed.

Section DatasetFacts.

Context {A : Type}.
Variable self : KnowBe4ReportGenerator.
Variable endpoint : string.

(** A collection cut into its full pages and the short page after them,
    as its server hands them out. *)
Lemma dataset_pages (dataset : list A) :
  ∃ (fulls : list (list A)) (last : list A),
    length fulls = (length dataset / 500)%nat
    ∧ length last = (length dataset mod 500)%nat
    ∧ concat fulls ++ last = dataset
    ∧ (∀ k p, fulls !! k = Some p →
         length p = 500%nat ∧ serves (dataset_server dataset) (1 + Z.of_nat k) p)
    ∧ serves (dataset_server dataset) (1 + Z.of_nat (length fulls)) last.
Proof.
  set (n := (length dataset / 500)%nat).
  pose proof (Nat.div_mod_eq (length dataset) 500) as Hdm. fold n in Hdm.
  pose proof (Nat.mod_upper_bound (length dataset) 500 ltac:(lia)) as Hmod.
  exists (full_pages n dataset), (drop (500 * n) dataset).
  assert (Hlenf : length (full_pages n dataset) = n)
    by (unfold full_pages; by rewrite length_fmap, length_seq).
  split; [exact Hlenf |]. split; [rewrite length_drop; lia |].
  split; [rewrite full_pages_concat; apply take_drop |]. split.
  - intros k p Hk. destruct (full_pages_lookup n dataset k p) as [Hp ->];
      [lia | exact Hk |]. split; [exact Hp |].
    replace (500 * k)%nat with (Z.to_nat ((1 + Z.of_nat k - 1) * 500)) by lia.
    apply dataset_server_serves.
  - rewrite Hlenf.
    rewrite <- (take_ge (drop (500 * n) dataset) 500) by (rewrite length_drop; lia).
    replace (500 * n)%nat with (Z.to_nat ((1 + Z.of_nat n - 1) * 500)) by lia.
    apply dataset_server_serves.
Qed.

(** With enough fuel a call against such a server returns the collection. *)
Lemma paginated_get_dataset (dataset : list A) (params : option loc) (fuel : nat)
    (w : world) :
  (length dataset / 500 < fuel)%nat →
  ∃ w', _paginated_get fuel self (dataset_server dataset) endpoint params w
        = Some (w', Ok dataset).
Proof.
  intros Hfuel.
  destruct (dataset_pages dataset) as (fulls & last & Hlenf & Hlast & Hall & Hfull & Hsrv).
  pose proof (Nat.mod_upper_bound (length dataset) 500 ltac:(lia)) as Hmod.
  destruct (paginate_until_short self (dataset_server dataset) endpoint params fulls last
              (fuel - S (length fulls)) [] 1 None w Hfull ltac:(lia) Hsrv)
    as (w' & rs & Hrun & _).
  replace (S (length fulls) + (fuel - S (length fulls)))%nat with fuel in Hrun by lia.
  rewrite app_nil_l, Hall in Hrun. exists w'. exact Hrun.
Qed.

(** X14: a call against a server that pages a collection returns the whole
    collection after one request per full page and one more; when the
    size of the collection is a multiple of 500 the last request finds an
    empty page, which the log records as an error. *)
Theorem fetch_whole_dataset (dataset : list A) (params : option loc) (fuel : nat)
    (w : world) :
  ∃ w' t,
    _paginated_get (S (length dataset / 500) + fuel) self (dataset_server dataset)
      endpoint params w = Some (w', Ok dataset)
    ∧ length (requests_sent w')
      = (length (requests_sent w) + S (length dataset / 500))%nat
    ∧ log w' = log w
        ++ (if bool_decide ((length dataset mod 500)%nat = 0%nat)
            then [ErrorEmptyResponse endpoint t] else [])
        ++ [InfoFetched (length dataset) endpoint].
Proof.
  destruct (dataset_pages dataset) as (fulls & last & Hlenf & Hlast & Hall & Hfull & Hsrv).
  pose proof (Nat.mod_upper_bound (length dataset) 500 ltac:(lia)) as Hmod.
  destruct (paginate_until_short self (dataset_server dataset) endpoint params fulls last
              fuel [] 1 None w Hfull ltac:(lia) Hsrv) as (w' & rs & Hrun & Hs & Hp & _).
  destruct (paginate_until_short_log self (dataset_server dataset) endpoint params fulls
              last fuel [] 1 None w w' _ Hfull ltac:(lia) Hsrv Hrun) as [t Hlog].
  rewrite Hlenf in Hrun. rewrite app_nil_l, Hall in Hrun, Hlog.
  exists w', t. split; [exact Hrun |]. split.
  - rewrite Hs, length_app. f_equal.
    apply (f_equal length) in Hp. rewrite !length_fmap, length_seq, Hlenf in Hp.
    exact Hp.
  - rewrite Hlog. f_equal. f_equal. case_bool_decide as Hz.
    + destruct last; [reflexivity | cbn [length] in Hlast; lia].
    + destruct last; [cbn [length] in Hlast; lia | reflexivity].
Qed.

End DatasetFacts.

Section FetcherFacts.

Variable self : KnowBe4ReportGenerator.

(** A call on a dictionary made for it: the requests carry the dictionary,
    and nothing that was in the heap before changes. *)
Lemma paginated_get_on_new_dict {A} (server : request → reply A) (endpoint : string)
    (d : dict) (fuel : nat) (w w' : world) (res : result (list A)) :
  _paginated_get fuel self server endpoint (Some (new_dict d w).1) (new_dict d w).2
    = Some (w', res) →
  ∃ rs, rs ≠ []
    ∧ requests_sent w' = requests_sent w ++ rs
    ∧ (∀ i r, rs !! i = Some r →
              r = {| url := base_url self +:+ endpoint;
                     query := stamp (1 + Z.of_nat i) d |})
    ∧ (∀ l, l ∈ dom (heap w) → heap w' !! l = heap w !! l).
Proof.
  unfold new_dict. cbn [fst snd]. set (l := fresh (dom (heap w))). intros Hrun.
  assert (Hlive : live (Some l) (store l d w)).
  { simpl. rewrite dom_insert. set_solver. }
  destruct (paginate_trace self server endpoint (Some l) fuel [] 1 None _ w' res Hlive Hrun)
    as (rs & Hne & Hrs & Hreqs & Hframe & _).
  exists rs. split; [exact Hne |]. split; [exact Hrs |]. split.
  - intros i r Hi. rewrite (Hreqs i r Hi). unfold request_of. simpl.
    by rewrite contents_store.
  - intros l0 Hl0.
    assert (Hne0 : l ≠ l0) by (intros <-; by apply (is_fresh (dom (heap w)))).
    rewrite Hframe.
    + simpl. by rewrite lookup_insert_ne.
    + simpl. rewrite dom_insert. set_solver.
    + intros [= ?]. contradiction.
Qed.

(** X15: the requests of [get_users] carry the filter [status=active], and
    those of [get_training_enrollments] the filter [campaign_id] when an id
    is given and is not 0, and no filter otherwise; every request has
    [per_page] 500 and the page of its pass, and no dictionary that was in
    the heap before the call is changed. *)
Theorem fetchers_send_filters (fuel : nat) (w w' : world) :
  (∀ (server : request → reply user) (res : result (list user)),
     get_users fuel self server w = Some (w', res) →
     ∃ rs, rs ≠ []
       ∧ requests_sent w' = requests_sent w ++ rs
       ∧ (∀ i r, rs !! i = Some r →
                 r = {| url := base_url self +:+ "/users";
                        query := stamp (1 + Z.of_nat i)
                                   {["status"%string := VStr "active"]} |})
       ∧ (∀ l, l ∈ dom (heap w) → heap w' !! l = heap w !! l))
  ∧ (∀ (server : request → reply enrollment) (campaign_id : option Z)
       (res : result (list enrollment)),
       get_training_enrollments fuel self server campaign_id w = Some (w', res) →
       ∃ rs, rs ≠ []
         ∧ requests_sent w' = requests_sent w ++ rs
         ∧ (∀ i r, rs !! i = Some r →
                   r = {| url := base_url self +:+ "/training/enrollments";
                          query := stamp (1 + Z.of_nat i)
                                     match campaign_id with
                                     | Some c =>
                                         if bool_decide (c = 0) then ∅
                                         else {["campaign_id"%string := VInt c]}
                                     | None => ∅
                                     end |})
         ∧ (∀ l, l ∈ dom (heap w) → heap w' !! l = heap w !! l)).
Proof.
  split.
  - intros server res. unfold get_users.
    pose proof (paginated_get_on_new_dict server "/users"
                  {["status"%string := VStr "active"]} fuel w w' res) as H.
    destruct (new_dict {["status"%string := VStr "active"]} w) as [l w1]. exact H.
  - intros server campaign_id res. unfold get_training_enrollments.
    set (d := match campaign_id with
              | Some c => if bool_decide (c = 0) then ∅
                          else {["campaign_id"%string := VInt c]}
              | None => ∅
              end).
    pose proof (paginated_get_on_new_dict server "/training/enrollments" d fuel w w' res)
      as H.
    replace (match campaign_id with
             | Some i => if bool_decide (i = 0) then ∅
                         else {["campaign_id"%string := VInt i]}
             | None => ∅
             end) with d by reflexivity.
    destruct (new_dict d w) as [l w1]. exact H.
Qed.

End FetcherFacts.

(* ===================================================================== *)
(** ** The run of the report *)
(* ===================================================================== *)

Section RunFacts.

Variable strptime : string → option datetime.
Variable now timestamp : datetime.
Variable self : KnowBe4ReportGenerator.
Variable srv : api.
Variable output_dir : string.

(** X16: a run of [generate_report] that ends returns normally.  Either an
    exception of the fetches or of the analysis was caught: then the last
    log record names it and no file was written.  Or the report was made:
    then the metrics file was written, the untrained-users file after it
    exactly when the report has a row, and the log ends with the two lines
    that say both files were saved, also when the second was not written.
    The file system of the embedding takes every write: a failure of
    [open] or of [to_csv] is outside this statement. *)
Theorem generate_report_outcome (fuel : nat) (w w' : world) (res : result unit) :
  generate_report fuel strptime now timestamp self srv output_dir w = Some (w', res) →
  res = Ok tt
  ∧ ((∃ e w1,
        w' = logger (ErrorGenerateReport e) w1 ∧ files w' = files w
        ∧ (fetch_data fuel self srv w = Some (w1, Raise e)
           ∨ ∃ users es,
               fetch_data fuel self srv w = Some (w1, Ok (users, es))
               ∧ analyse_training_data strptime now self users es
                   (mandatory_campaigns self) = Raise e))
     ∨ (∃ users es r w1,
          fetch_data fuel self srv w = Some (w1, Ok (users, es))
          ∧ analyse_training_data strptime now self users es
              (mandatory_campaigns self) = Ok r
          ∧ files w' =
              files w
              ++ MetricsFile output_dir timestamp (metrics_rows (report_metrics r))
                 :: match report_untrained_users r with
                    | [] => []
                    | rows => [UntrainedUsersFile output_dir timestamp rows]
                    end
          ∧ log w' =
              log w1 ++ [InfoMetricsSaved output_dir timestamp;
                         InfoUntrainedSaved output_dir timestamp])).
Proof.
  unfold generate_report, try_except, mbind, io_bind.
  destruct (fetch_data fuel self srv w) as [[w1 [[users es] | e]] |] eqn:Hfetch;
    [| | discriminate].
  - pose proof (fetch_data_files self fuel srv w w1 _ Hfetch) as Hf.
    unfold io_result.
    destruct (analyse_training_data strptime now self users es (mandatory_campaigns self))
      as [r | e] eqn:Hr.
    + unfold write_report, mbind, io_bind, io_write, io_log, mret, io_ret.
      destruct (report_untrained_users r) as [| row rows] eqn:Hrows;
        intros [= <- <-]; (split; [reflexivity |]); right;
        exists users, es, r, w1; rewrite Hrows; simpl; rewrite Hf;
        repeat split; by rewrite <- ?app_assoc.
    + unfold io_log. intros [= <- <-]. split; [reflexivity |]. left.
      exists e, w1. split; [reflexivity |]. split; [exact Hf |]. right. eauto.
  - pose proof (fetch_data_files self fuel srv w w1 _ Hfetch) as Hf.
    unfold io_log. intros [= <- <-]. split; [reflexivity |]. left.
    exists e, w1. split; [reflexivity |]. split; [exact Hf |]. by left.
Qed.

(** X17: when the first request for the users gets no response, the run
    ends after that one request: the error of the request and the
    [UnboundLocalError] of its handler are logged, no campaign is fetched
    and no file is written. *)
Theorem users_failure_aborts (fuel : nat) (w : world) :
  (∀ req, users_api srv req = NoResponse) →
  ∃ w', generate_report (S fuel) strptime now timestamp self srv output_dir w
          = Some (w', Ok tt)
    ∧ log w' = log w ++ [ErrorFetching "/users"; ErrorGenerateReport UnboundLocalError]
    ∧ files w' = files w
    ∧ length (requests_sent w') = S (length (requests_sent w)).
Proof.
  intros Hno.
  unfold generate_report, try_except, fetch_data, mbind, io_bind, get_users,
    _paginated_get.
  destruct (new_dict {["status"%string := VStr "active"]} w) as [l w0] eqn:Hn.
  assert (Hw0 : requests_sent w0 = requests_sent w ∧ log w0 = log w ∧ files w0 = files w).
  { unfold new_dict in Hn. by injection Hn as _ <-. }
  destruct Hw0 as (Hs0 & Hl0 & Hf0). simpl.
  pose proof (issue_effects self "/users" (Some l) 1 w0) as (Hs & Hl & Hf).
  destruct (issue self "/users" (Some l) 1 w0) as [req w1]. cbn [fst snd] in *.
  rewrite Hno. unfold on_request_exception, io_log. eexists. split; [reflexivity |].
  simpl. rewrite Hl, Hl0, Hf, Hf0, Hs, Hs0, length_app, <- app_assoc. simpl.
  repeat split. lia.
Qed.

Lemma filter_none {B} (P : B → Prop) `{!∀ x, Decision (P x)} (l : list B) :
  (∀ x, x ∈ l → ¬ P x) → filter P l = [].
Proof.
  induction l as [| x l IH]; intros Hall; [reflexivity |].
  rewrite filter_cons, decide_False by (apply Hall; by left).
  apply IH. intros y Hy. apply Hall. by right.
Qed.

(** X18: when no fetched campaign has a mandatory name (as with an empty
    list of mandatory campaigns), no enrollment is requested, and the run
    writes the metrics file alone, with every user counted and none
    untrained. *)
Theorem no_relevant_campaign (fuel : nat) (w w1 w2 : world) (users : list user)
    (campaigns : list campaign) :
  get_users fuel self (users_api srv) w = Some (w1, Ok users) →
  get_training_campaigns fuel self (campaigns_api srv) w1 = Some (w2, Ok campaigns) →
  (∀ c, c ∈ campaigns → name c ∉ mandatory_campaigns self) →
  ∃ w', generate_report fuel strptime now timestamp self srv output_dir w
          = Some (w', Ok tt)
    ∧ requests_sent w' = requests_sent w2
    ∧ files w' =
        files w2
        ++ [MetricsFile output_dir timestamp
              [("Total Users"%string, inject_Z (Z.of_nat (length users)));
               ("Total Untrained Users"%string, inject_Z 0);
               ("Completion Rate (%)"%string,
                Binary64.round2 (completion_rate (Z.of_nat (length users)) 0))]].
Proof.
  intros Hu Hc Hnone.
  unfold generate_report, try_except, fetch_data, mbind, io_bind.
  rewrite Hu, Hc. rewrite (filter_none _ campaigns Hnone). simpl.
  unfold io_result, analyse_training_data. simpl.
  unfold write_report, mbind, io_bind, io_write, io_log, mret, io_ret.
  unfold untrained_rows. rewrite elements_empty. simpl.
  eexists. split; [reflexivity |]. simpl.
  change (set_size {| mapset.mapset_car := ∅ |}) with (size (∅ : gset Z)).
  by rewrite size_empty.
Qed.

End RunFacts.

(* ===================================================================== *)
(** ** The fetches of a run against paging servers *)
(* ===================================================================== *)

Section CollectFacts.

Variable self : KnowBe4ReportGenerator.

(** The loop sees of the server only its answers to the requests of the
    passes. *)
Lemma paginate_ext {A} (server server' : request → reply A) (endpoint : string)
    (params : option loc) (fuel : nat) :
  ∀ (all_results : list A) (page : Z) (response : option (response A)) (w : world),
  live params w →
  (∀ p, server (request_of self endpoint params p w)
        = server' (request_of self endpoint params p w)) →
  paginate fuel self server endpoint params all_results page response w
  = paginate fuel self server' endpoint params all_results page response w.
Proof.
  induction fuel as [| fuel IH]; intros all_results page response w Hlive Hsame;
    simpl; [reflexivity |].
  destruct (issue_spec self endpoint params page w Hlive)
    as (Hreq & Hlive1 & Hinv & _).
  destruct (issue self endpoint params page w) as [req w1]. cbn [fst snd] in *.
  subst req. rewrite <- Hsame.
  destruct (server (request_of self endpoint params page w)) as [| r1]; [reflexivity |].
  destruct (raises_for_status r1); [reflexivity |].
  destruct (json r1) as [[| x data] |]; try reflexivity.
  destruct (Z.of_nat (length (x :: data)) <? per_page); [reflexivity |].
  apply IH; [exact Hlive1 |]. intros p. unfold request_of. rewrite Hinv. apply Hsame.
Qed.

(** A call of [get_training_enrollments] gets the enrollments of its
    campaign, or all of them for the id 0. *)
Lemma get_training_enrollments_dataset (table : Z → list enrollment)
    (all : list enrollment) (c : Z) (fuel : nat) (w : world) :
  (length (enrollments_for table all c) / 500 < fuel)%nat →
  ∃ w', get_training_enrollments fuel self (enrollments_server table all) (Some c) w
        = Some (w', Ok (enrollments_for table all c)).
Proof.
  intros Hfuel. unfold get_training_enrollments, _paginated_get.
  set (d := if bool_decide (c = 0) then (∅ : gmap string value)
            else {["campaign_id"%string := VInt c]}).
  destruct (new_dict d w) as [l w0] eqn:Hnew.
  assert (Hl : live (Some l) w0 ∧ contents l w0 = d).
  { unfold new_dict in Hnew. injection Hnew as <- <-. split.
    - simpl. rewrite dom_insert. set_solver.
    - apply contents_store. }
  destruct Hl as [Hlive Hd].
  rewrite (paginate_ext (enrollments_server table all)
             (dataset_server (enrollments_for table all c))
             "/training/enrollments" (Some l) fuel [] 1 None w0 Hlive).
  - apply (paginated_get_dataset self "/training/enrollments"
             (enrollments_for table all c) (Some l) fuel w0 Hfuel).
  - intros p. unfold enrollments_server, request_of. cbn [query base_query].
    rewrite stamp_lookup_other by done. rewrite Hd. unfold d, enrollments_for.
    case_bool_decide as Hc.
    + by rewrite lookup_empty.
    + by rewrite lookup_singleton.
Qed.

(** The loop over the campaigns appends what each call gets, campaign by
    campaign. *)
Lemma fetch_enrollments_dataset (table : Z → list enrollment) (all : list enrollment)
    (fuel : nat) (cs : list campaign) :
  ∀ (acc : list enrollment) (w : world),
  (∀ c, c ∈ cs → (length (enrollments_for table all (campaign_id c)) / 500 < fuel)%nat) →
  ∃ w', fetch_enrollments fuel self (enrollments_server table all) cs acc w
        = Some (w', Ok (acc ++ concat ((λ c, enrollments_for table all (campaign_id c))
                                        <$> cs))).
Proof.
  induction cs as [| c cs IH]; intros acc w Hfuel.
  - exists w. simpl. by rewrite app_nil_r.
  - destruct (get_training_enrollments_dataset table all (campaign_id c) fuel w)
      as [w1 Hget]; [apply Hfuel; by left |].
    destruct (IH (acc ++ enrollments_for table all (campaign_id c)) w1)
      as [w' Hrest]; [intros c' Hc'; apply Hfuel; by right |].
    exists w'. cbn [fetch_enrollments]. unfold mbind, io_bind. rewrite Hget, Hrest.
    by rewrite fmap_cons, concat_cons, app_assoc.
Qed.

(** X19: against servers that page their collections, the fetches of a run
    return every user and, for each campaign with a mandatory name in the
    order of the campaigns list, the enrollments of that campaign; a
    campaign whose id is 0 is fetched without a filter and brings the
    enrollments of every campaign. *)
Theorem fetch_data_collects (users : list user) (campaigns : list campaign)
    (table : Z → list enrollment) (all : list enrollment) (fuel : nat) (w : world) :
  (length users / 500 < fuel)%nat →
  (length campaigns / 500 < fuel)%nat →
  (∀ c, c ∈ campaigns → name c ∈ mandatory_campaigns self →
        (length (enrollments_for table all (campaign_id c)) / 500 < fuel)%nat) →
  ∃ w',
    fetch_data fuel self
      {| users_api := dataset_server users;
         campaigns_api := dataset_server campaigns;
         enrollments_api := enrollments_server table all |} w
    = Some (w', Ok (users,
                    concat ((λ c, enrollments_for table all (campaign_id c))
                            <$> filter (λ c, name c ∈ mandatory_campaigns self)
                                  campaigns))).
Proof.
  intros Hu Hc He. unfold fetch_data, mbind, io_bind. cbn [users_api campaigns_api enrollments_api].
  unfold get_users.
  destruct (new_dict {["status"%string := VStr "active"]} w) as [l w0].
  destruct (paginated_get_dataset self "/users" users (Some l) fuel w0 Hu)
    as [w1 Hrun1].
  rewrite Hrun1. unfold get_training_campaigns.
  destruct (paginated_get_dataset self "/training/campaigns" campaigns None fuel w1 Hc)
    as [w2 Hrun2].
  rewrite Hrun2. unfold io_log.
  destruct (fetch_enrollments_dataset table all fuel
              (filter (λ c, name c ∈ mandatory_campaigns self) campaigns) []
              (logger (InfoRelevantCampaigns
                         (length (filter (λ c, name c ∈ mandatory_campaigns self)
                                    campaigns))) w2))
    as [w' Hrun3].
  { intros c Hin. apply list_elem_of_filter in Hin as [Hname Hin]. by apply He. }
  rewrite Hrun3. exists w'. reflexivity.
Qed.

End CollectFacts.

(* ===================================================================== *)
(** ** The further properties on the sample data *)
(* ===================================================================== *)

(** One user, one overdue enrollment of theirs: one row, one untrained id. *)
Lemma report_counts_witness :
  Z.of_nat (length (report_untrained_users Sample.report_untrained))
    ≤ Total_Untrained_Users (report_metrics Sample.report_untrained)
  ∧ Total_Untrained_Users (report_metrics Sample.report_untrained)
    ≤ Z.of_nat (length [Sample.failed_2000])
  ∧ ((∀ e, e ∈ [Sample.failed_2000] → user_id e ∈ uid <$> [Sample.user_1]) →
     Z.of_nat (length (report_untrained_users Sample.report_untrained))
     = Total_Untrained_Users (report_metrics Sample.report_untrained)).
Proof.
  apply (report_counts strptime_iso Sample.clock Sample.generator [Sample.user_1]
           [Sample.failed_2000] ["Security101"%string] Sample.report_untrained).
  reflexivity.
Defined.

(** One user whose only enrollment is passed. *)
Lemma completion_rate_endpoints_witness :
  (Total_Untrained_Users (report_metrics Sample.report_trained) = 0 →
   (Completion_Rate (report_metrics Sample.report_trained) == 100)%Q)
  ∧ (Total_Untrained_Users (report_metrics Sample.report_trained)
     = Total_Users (report_metrics Sample.report_trained) →
     Completion_Rate (report_metrics Sample.report_trained) = 0%Q).
Proof.
  apply (completion_rate_endpoints strptime_iso Sample.clock Sample.generator
           [Sample.user_1] [Sample.passed_2000] ["Security101"%string]
           Sample.report_trained).
  - vm_compute. reflexivity.
  - discriminate.
Defined.

(** A passed enrollment, then a failed one added to it. *)
Lemma more_enrollments_lower_rate_witness :
  Total_Untrained_Users (report_metrics Sample.report_trained)
    ≤ Total_Untrained_Users (report_metrics Sample.report_untrained)
  ∧ (Completion_Rate (report_metrics Sample.report_untrained)
     <= Completion_Rate (report_metrics Sample.report_trained))%Q.
Proof.
  apply (more_enrollments_lower_rate strptime_iso Sample.clock Sample.generator
           [Sample.user_1] ["Security101"%string] [Sample.passed_2000]
           [Sample.failed_2000]).
  - vm_compute. reflexivity.
  - vm_compute. reflexivity.
Defined.

(** A call with the caller's dictionary [{'status': 'active'}]. *)
Lemma requests_carry_parameters_witness :
  ∃ rs, rs ≠ []
    ∧ requests_sent Sample.after_call = requests_sent Sample.caller_world ++ rs
    ∧ ∀ i r, rs !! i = Some r →
        url r = base_url Sample.generator +:+ "/users"
        ∧ page_of r = Some (1 + Z.of_nat i)
        ∧ query r !! "per_page"%string = Some (VInt 500)
        ∧ ∀ k, k ≠ "page"%string → k ≠ "per_page"%string →
               query r !! k = base_query (Some 1%positive) Sample.caller_world !! k.
Proof.
  apply (requests_carry_parameters Sample.generator (dataset_server [Sample.user_1])
           "/users" (Some 1%positive) 1 Sample.caller_world Sample.after_call
           (Ok [Sample.user_1])).
  - vm_compute. reflexivity.
  - vm_compute. reflexivity.
Defined.

(** The same call, for the heap it leaves behind. *)
Lemma heap_after_paginated_get_witness :
  (∀ l, l ∈ dom (heap Sample.caller_world) →
        (Some 1%positive = Some l → contents l Sample.caller_world = ∅) →
        heap Sample.after_call !! l = heap Sample.caller_world !! l)
  ∧ (∀ l, Some 1%positive = Some l → contents l Sample.caller_world ≠ ∅ →
          ∃ n : nat,
            length (requests_sent Sample.after_call)
            = (length (requests_sent Sample.caller_world) + n)%nat
            ∧ (0 < n)%nat
            ∧ contents l Sample.after_call = stamp (Z.of_nat n) (contents l Sample.caller_world)).
Proof.
  apply (heap_after_paginated_get Sample.generator (dataset_server [Sample.user_1])
           "/users" (Some 1%positive) 1 Sample.caller_world Sample.after_call
           (Ok [Sample.user_1])).
  - vm_compute. reflexivity.
  - vm_compute. reflexivity.
Defined.

(** One full page of the roster, then no response. *)
Lemma partial_result_on_failure_witness :
  ∃ w',
    _paginated_get (S (length [take 500 Sample.roster]) + 0) Sample.generator
      (outage_after 1 Sample.roster) "/users" None world_empty
      = Some (w', Ok (concat [take 500 Sample.roster]))
    ∧ length (requests_sent w')
      = (length (requests_sent world_empty) + S (length [take 500 Sample.roster]))%nat.
Proof.
  apply (partial_result_on_failure Sample.generator (outage_after 1 Sample.roster)
           "/users" None [take 500 Sample.roster] 0 world_empty).
  - intros [| k] p Hp; [| discriminate]. injection Hp as <-. split.
    + vm_compute. reflexivity.
    + intros req [Hpage Hper]. unfold outage_after, page_of. rewrite Hpage.
      destruct (dataset_server_serves Sample.roster 1 req (conj Hpage Hper))
        as (r & Hr & Hs & Hj).
      exists r. split; [exact Hr |]. split; [exact Hs | exact Hj].
  - intros req [Hpage _]. split.
    + left. unfold outage_after, page_of. rewrite Hpage. reflexivity.
    + discriminate.
Defined.

(** A run against an upstream with one overdue enrollment: both files. *)
Lemma generate_report_outcome_witness :
  generate_report 1 strptime_iso Sample.clock Sample.clock Sample.generator
    Sample.upstream_overdue "." world_empty = Some (Sample.after_report, Ok tt)
  ∧ files Sample.after_report =
      [MetricsFile "." Sample.clock (metrics_rows (report_metrics Sample.report_untrained));
       UntrainedUsersFile "." Sample.clock (report_untrained_users Sample.report_untrained)]
  ∧ (Ok tt = Ok tt
     ∧ ((∃ e w1,
        Sample.after_report = logger (ErrorGenerateReport e) w1
        ∧ files Sample.after_report = files world_empty
        ∧ (fetch_data 1 Sample.generator Sample.upstream_overdue world_empty
             = Some (w1, Raise e)
           ∨ ∃ users es,
               fetch_data 1 Sample.generator Sample.upstream_overdue world_empty
                 = Some (w1, Ok (users, es))
               ∧ analyse_training_data strptime_iso Sample.clock Sample.generator users es
                   (mandatory_campaigns Sample.generator) = Raise e))
     ∨ (∃ users es r w1,
          fetch_data 1 Sample.generator Sample.upstream_overdue world_empty
            = Some (w1, Ok (users, es))
          ∧ analyse_training_data strptime_iso Sample.clock Sample.generator users es
              (mandatory_campaigns Sample.generator) = Ok r
          ∧ files Sample.after_report =
              files world_empty
              ++ MetricsFile "." Sample.clock (metrics_rows (report_metrics r))
                 :: match report_untrained_users r with
                    | [] => []
                    | rows => [UntrainedUsersFile "." Sample.clock rows]
                    end
          ∧ log Sample.after_report =
              log w1 ++ [InfoMetricsSaved "." Sample.clock;
                         InfoUntrainedSaved "." Sample.clock]))).
Proof.
  assert (Hrun : generate_report 1 strptime_iso Sample.clock Sample.clock
                   Sample.generator Sample.upstream_overdue "." world_empty
                 = Some (Sample.after_report, Ok tt)) by (vm_compute; reflexivity).
  split; [exact Hrun |]. split; [vm_compute; reflexivity |].
  exact (generate_report_outcome strptime_iso Sample.clock Sample.clock Sample.generator
           Sample.upstream_overdue "." 1 world_empty Sample.after_report (Ok tt) Hrun).
Defined.

(** A run against an upstream that answers nothing. *)
Lemma users_failure_aborts_witness :
  ∃ w', generate_report (S 0) strptime_iso Sample.clock Sample.clock Sample.generator
          Sample.offline "." world_empty = Some (w', Ok tt)
    ∧ log w' = log world_empty
               ++ [ErrorFetching "/users"; ErrorGenerateReport UnboundLocalError]
    ∧ files w' = files world_empty
    ∧ length (requests_sent w') = S (length (requests_sent world_empty)).
Proof.
  apply (users_failure_aborts strptime_iso Sample.clock Sample.clock Sample.generator
           Sample.offline "." 0 world_empty).
  intros req. reflexivity.
Defined.

(** A run against an upstream whose only campaign is not mandatory. *)
Lemma no_relevant_campaign_witness :
  ∃ w', generate_report 1 strptime_iso Sample.clock Sample.clock Sample.generator
          Sample.upstream_other "." world_empty = Some (w', Ok tt)
    ∧ requests_sent w' = requests_sent Sample.after_campaigns
    ∧ files w' =
        files Sample.after_campaigns
        ++ [MetricsFile "." Sample.clock
              [("Total Users"%string, inject_Z (Z.of_nat (length [Sample.user_1])));
               ("Total Untrained Users"%string, inject_Z 0);
               ("Completion Rate (%)"%string,
                Binary64.round2
                  (completion_rate (Z.of_nat (length [Sample.user_1])) 0))]].
Proof.
  apply (no_relevant_campaign strptime_iso Sample.clock Sample.clock Sample.generator
           Sample.upstream_other "." 1 world_empty Sample.after_users
           Sample.after_campaigns [Sample.user_1]
           [{| name := "Phishing"; campaign_id := 8 |}]).
  - vm_compute. reflexivity.
  - vm_compute. reflexivity.
  - intros c Hc Hin. apply list_elem_of_singleton in Hc as ->.
    apply list_elem_of_singleton in Hin. discriminate.
Defined.

(** One user, the mandatory campaign 7, and the enrollments of 7. *)
Lemma fetch_data_collects_witness :
  ∃ w',
    fetch_data 1 Sample.generator
      {| users_api := dataset_server [Sample.user_1];
         campaigns_api := dataset_server [{| name := "Security101"; campaign_id := 7 |};
                                          {| name := "Phishing"; campaign_id := 8 |}];
         enrollments_api :=
           enrollments_server
             (λ c, if bool_decide (c = 7) then [Sample.failed_2000]
                   else [Sample.stranger_98])
             [Sample.failed_2000; Sample.stranger_98] |} world_empty
    = Some (w', Ok ([Sample.user_1],
                    concat ((λ c, enrollments_for
                                    (λ c, if bool_decide (c = 7) then [Sample.failed_2000]
                                          else [Sample.stranger_98])
                                    [Sample.failed_2000; Sample.stranger_98]
                                    (campaign_id c))
                            <$> filter (λ c, name c ∈ mandatory_campaigns Sample.generator)
                                  [{| name := "Security101"; campaign_id := 7 |};
                                   {| name := "Phishing"; campaign_id := 8 |}]))).
Proof.
  apply (fetch_data_collects Sample.generator [Sample.user_1]
           [{| name := "Security101"; campaign_id := 7 |};
            {| name := "Phishing"; campaign_id := 8 |}]).
  - vm_compute. lia.
  - vm_compute. lia.
  - intros c Hc _. apply elem_of_cons in Hc as [-> | Hc];
      [| apply list_elem_of_singleton in Hc as ->]; vm_compute; lia.
Defined.
